(** * gevent_socketio2: transport layer and binary attachment codec

    A shallow embedding of [socketio_client/engine/transports.py] and of the
    binary codec exercised by [tests/test_binary.py].

    - [Binary]: the attachment codec ([deconstruct_packet],
      [reconstruct_packet]).
    - [Transports]: the class hierarchy [Transport], [PollingTransport],
      [XHRPollingTransport], [WebsocketTransport] as one record with a kind
      tag, methods as functions in a state-and-exception monad. *)

From Stdlib Require Import ZArith List String Ascii Bool Lia.
From Stdlib Require Import Strings.Byte DecimalString.
Import ListNotations.

Local Open Scope string_scope.
Local Open Scope list_scope.
Local Open Scope Z_scope.

(** ** Python sequence indexing *)

(** [l[i]] on a Python list: indices [0 .. len-1] count from the front,
    [-len .. -1] from the back, anything else raises [IndexError] ([None]). *)
Definition py_index {A : Type} (l : list A) (i : Z) : option A :=
  let n := Z.of_nat (List.length l) in
  if (0 <=? i) && (i <? n) then nth_error l (Z.to_nat i)
  else if (- n <=? i) && (i <? 0) then nth_error l (Z.to_nat (n + i))
  else None.

Module Binary.

(** The data carried by a packet: JSON-like values plus raw binary blobs
    (Python [bytearray]).  A map keeps its entries in iteration order. *)
Unset Elimination Schemes.
Inductive tree : Type :=
| Null : tree
| Bool : bool -> tree
| Num : Z -> tree
| Text : string -> tree
| Blob : list byte -> tree
| Arr : list tree -> tree
| Map : list (string * tree) -> tree.
Set Elimination Schemes.

Record packet : Type := mkPacket {
  ptype : string;
  data : tree;
  attachments : option Z
}.

Record deconstructed : Type := mkDeconstructed {
  d_packet : packet;
  d_buffers : list (list byte)
}.

(** [m.get(k)] on a map. *)
Fixpoint lookup (k : string) (m : list (string * tree)) : option tree :=
  match m with
  | [] => None
  | (k', v) :: r => if String.eqb k k' then Some v else lookup k r
  end.

(** Modelled from the spec: the placeholder object
    [{_placeholder: true, num: i}] that stands for buffer [i]. *)
Definition placeholder (i : Z) : tree :=
  Map [("_placeholder", Bool true); ("num", Num i)].

(** Modelled from the spec: the runtime field check that recognises a
    placeholder token. *)
Definition is_placeholder (m : list (string * tree)) : bool :=
  match lookup "_placeholder" m with
  | Some (Bool true) => true
  | _ => false
  end.

(** Modelled from the spec: [socketio/binary.py] is not among the sources;
    this is the depth-first traversal of [Binary.deconstruct_packet], which
    appends every raw binary value to [buffers] and leaves a placeholder
    carrying its index. The buffer list is threaded through the traversal. *)
Fixpoint deconstruct (d : tree) (buffers : list (list byte))
  : tree * list (list byte) :=
  match d with
  | Blob b => (placeholder (Z.of_nat (List.length buffers)), buffers ++ [b])
  | Arr l =>
      let fix items (l : list tree) (buffers : list (list byte)) :=
        match l with
        | [] => ([], buffers)
        | x :: r =>
            let (x', b1) := deconstruct x buffers in
            let (r', b2) := items r b1 in
            (x' :: r', b2)
        end in
      let (l', b') := items l buffers in (Arr l', b')
  | Map m =>
      let fix entries (m : list (string * tree)) (buffers : list (list byte)) :=
        match m with
        | [] => ([], buffers)
        | (k, v) :: r =>
            let (v', b1) := deconstruct v buffers in
            let (r', b2) := entries r b1 in
            ((k, v') :: r', b2)
        end in
      let (m', b') := entries m buffers in (Map m', b')
  | _ => (d, buffers)
  end.

(** The two inner loops of [deconstruct], named. *)
Fixpoint deconstruct_items (l : list tree) (buffers : list (list byte))
  : list tree * list (list byte) :=
  match l with
  | [] => ([], buffers)
  | x :: r =>
      let (x', b1) := deconstruct x buffers in
      let (r', b2) := deconstruct_items r b1 in
      (x' :: r', b2)
  end.

Fixpoint deconstruct_entries (m : list (string * tree))
  (buffers : list (list byte)) : list (string * tree) * list (list byte) :=
  match m with
  | [] => ([], buffers)
  | (k, v) :: r =>
      let (v', b1) := deconstruct v buffers in
      let (r', b2) := deconstruct_entries r b1 in
      ((k, v') :: r', b2)
  end.

(** Modelled from the spec: [Binary.deconstruct_packet]; [attachments] is
    stored on the skeleton when there is at least one buffer. *)
Definition deconstruct_packet (p : packet) : deconstructed :=
  let (skeleton, buffers) := deconstruct (data p) [] in
  mkDeconstructed
    (mkPacket (ptype p) skeleton
       (match buffers with
        | [] => attachments p
        | _ => Some (Z.of_nat (List.length buffers))
        end))
    buffers.

(** Modelled from the spec: the inverse traversal of
    [Binary.reconstruct_packet]: a placeholder token becomes
    [buffers[token.num]], everything else passes through. [None] stands for
    the lookup failing ([KeyError], [IndexError]). *)
Fixpoint reconstruct (d : tree) (buffers : list (list byte)) : option tree :=
  match d with
  | Arr l =>
      let fix items (l : list tree) : option (list tree) :=
        match l with
        | [] => Some []
        | x :: r =>
            match reconstruct x buffers, items r with
            | Some x', Some r' => Some (x' :: r')
            | _, _ => None
            end
        end in
      option_map Arr (items l)
  | Map m =>
      if is_placeholder m then
        match lookup "num" m with
        | Some (Num i) => option_map Blob (py_index buffers i)
        | _ => None
        end
      else
        let fix entries (m : list (string * tree)) :=
          match m with
          | [] => Some []
          | (k, v) :: r =>
              match reconstruct v buffers, entries r with
              | Some v', Some r' => Some ((k, v') :: r')
              | _, _ => None
              end
          end in
        option_map Map (entries m)
  | _ => Some d
  end.

Fixpoint reconstruct_items (l : list tree) (buffers : list (list byte))
  : option (list tree) :=
  match l with
  | [] => Some []
  | x :: r =>
      match reconstruct x buffers, reconstruct_items r buffers with
      | Some x', Some r' => Some (x' :: r')
      | _, _ => None
      end
  end.

Fixpoint reconstruct_entries (m : list (string * tree))
  (buffers : list (list byte)) : option (list (string * tree)) :=
  match m with
  | [] => Some []
  | (k, v) :: r =>
      match reconstruct v buffers, reconstruct_entries r buffers with
      | Some v', Some r' => Some ((k, v') :: r')
      | _, _ => None
      end
  end.

(** Modelled from the spec: [Binary.reconstruct_packet] returns the original
    packet: data rebuilt, the attachment count dropped. *)
Definition reconstruct_packet (p : packet) (buffers : list (list byte))
  : option packet :=
  option_map (fun d => mkPacket (ptype p) d None) (reconstruct (data p) buffers).

(** No map of the tree, at any depth, is recognised as a placeholder. *)
Fixpoint placeholder_free (d : tree) : bool :=
  match d with
  | Arr l =>
      (fix items (l : list tree) : bool :=
         match l with
         | [] => true
         | x :: r => placeholder_free x && items r
         end) l
  | Map m =>
      negb (is_placeholder m) &&
      (fix entries (m : list (string * tree)) : bool :=
         match m with
         | [] => true
         | (_, v) :: r => placeholder_free v && entries r
         end) m
  | _ => true
  end.

Definition event (d : tree) : packet := mkPacket "event" d None.

Definition bytearray (l : list Z) : list byte :=
  map (fun z => match Byte.of_N (Z.to_N z) with Some b => b | None => x00 end) l.

(** The round trip of the data of an [event] packet through
    [deconstruct_packet] and [reconstruct_packet]. *)
Definition round_trip (D : tree) : Prop :=
  let results := deconstruct_packet (event D) in
  option_map data (reconstruct_packet (d_packet results) (d_buffers results))
  = Some D.

(** The data of the tests of [test_binary.py]. *)
Definition test_list : tree :=
  Arr [Text "what"; Blob (bytearray [0; 1; 2; 3]); Text "the";
       Blob (bytearray [4; 5]); Text "hell"].

Definition test_dict : tree :=
  Map [("hello", Blob (bytearray [0; 1; 2; 3]));
       ("world", Blob (bytearray [4; 5]));
       ("yes", Text "!!")].

Definition test_dict_bool : tree :=
  Map [("hello", Text "what");
       ("world", Blob (bytearray [4; 5]));
       ("yes", Bool true)].

(** An array that carries a blob and, next to it, a map with the shape of
    the placeholder of buffer 0. *)
Definition lookalike : tree :=
  Arr [Blob (bytearray [0; 1; 2]); placeholder 0].

End Binary.

Module Transports.

(** ** Data *)

(** What travels on the wire: a Python [str] or a [bytearray]. *)
Inductive wire : Type :=
| Str : string -> wire
| Bytearray : list byte -> wire.

(** A decoded packet: [{"type": ..., "data": ...}]. *)
Record packet : Type := mkPacket {
  ptype : string;
  pdata : option wire
}.

(** The first argument of [send]: one packet, or a list or tuple of them. *)
Inductive packets_arg : Type :=
| Single : packet -> packets_arg
| Sequence : list packet -> packets_arg.

(** The values [ready_state] takes; Python's [None] is [None]. *)
Inductive state : Type :=
| Opening | Open | Pausing | Paused | Closing | Closed.

Definition state_eqb (a b : state) : bool :=
  match a, b with
  | Opening, Opening | Open, Open | Pausing, Pausing
  | Paused, Paused | Closing, Closing | Closed, Closed => true
  | _, _ => false
  end.

(** ['s' == self.ready_state] *)
Definition is_state (s : state) (r : option state) : bool :=
  match r with
  | Some s' => state_eqb s s'
  | None => false
  end.

(** The classes of the file. *)
Inductive kind : Type :=
| Transport | PollingTransport | XHRPollingTransport | WebsocketTransport.

Definition polling_kind (k : kind) : bool :=
  match k with
  | PollingTransport | XHRPollingTransport => true
  | _ => false
  end.

Inductive exn : Type :=
| ValueError : string -> exn
| NotImplementedError : exn
| RuntimeWarning : string -> exn
| AttributeError : exn.

Inductive event : Type :=
| EvOpen | EvClose | EvDrain | EvPoll | EvPollComplete
| EvPacket : packet -> event
| EvError : string -> string -> event.

Inductive http_method : Type := GET | POST.

Record response : Type := mkResponse {
  status_code : Z;
  content_type : string;
  content : string
}.

(** What the transport does to the outside, in order: events emitted,
    HTTP requests issued, websocket frames sent. *)
Inductive effect : Type :=
| Emit : event -> effect
| Request : http_method -> string -> option wire -> option string -> effect
| WsSend : wire -> bool -> effect.

(** The closure environment of one [pause] call: the [context] dict, and
    whether its [on_poll_complete] is still registered, once, for
    [poll_complete] and for [drain]. [ev] is [context['event']]: absent, or
    the flag of the gevent [Event]. *)
Record pause_context : Type := mkContext {
  total : Z;
  ev : option bool;
  on_poll_complete : bool;
  on_drain : bool
}.

Record transport : Type := mkTransport {
  cls : kind;
  path : string;
  hostname : string;
  port : option Z;
  secure : bool;
  sid : option string;
  ready_state : option state;
  writable : bool;
  supports_binary : bool;
  polling : bool;
  websocket : bool;
  pauses : list pause_context;
  deferred_close : nat;
  log : list effect
}.

Definition set_ready_state (v : option state) (t : transport) : transport :=
  mkTransport (cls t) (path t) (hostname t) (port t) (secure t) (sid t) v
    (writable t) (supports_binary t) (polling t) (websocket t) (pauses t)
    (deferred_close t) (log t).

Definition set_writable (v : bool) (t : transport) : transport :=
  mkTransport (cls t) (path t) (hostname t) (port t) (secure t) (sid t)
    (ready_state t) v (supports_binary t) (polling t) (websocket t) (pauses t)
    (deferred_close t) (log t).

Definition set_polling (v : bool) (t : transport) : transport :=
  mkTransport (cls t) (path t) (hostname t) (port t) (secure t) (sid t)
    (ready_state t) (writable t) (supports_binary t) v (websocket t) (pauses t)
    (deferred_close t) (log t).

Definition set_pauses (v : list pause_context) (t : transport) : transport :=
  mkTransport (cls t) (path t) (hostname t) (port t) (secure t) (sid t)
    (ready_state t) (writable t) (supports_binary t) (polling t) (websocket t)
    v (deferred_close t) (log t).

Definition set_deferred_close (v : nat) (t : transport) : transport :=
  mkTransport (cls t) (path t) (hostname t) (port t) (secure t) (sid t)
    (ready_state t) (writable t) (supports_binary t) (polling t) (websocket t)
    (pauses t) v (log t).

Definition record (e : effect) (t : transport) : transport :=
  mkTransport (cls t) (path t) (hostname t) (port t) (secure t) (sid t)
    (ready_state t) (writable t) (supports_binary t) (polling t) (websocket t)
    (pauses t) (deferred_close t) (log t ++ [e]).

(** [Transport.__init__], with [PollingTransport.__init__] and
    [WebsocketTransport.__init__]. *)
Definition init (k : kind) (path host : string) (port : option Z)
  (secure force_base64 : bool) : transport :=
  mkTransport k path host port secure None None false (negb force_base64)
    false false [] 0%nat [].

(** ** Methods: state and exceptions *)

Inductive result (A : Type) : Type :=
| Ret : A -> result A
| Raise : exn -> result A.
Arguments Ret {A} _.
Arguments Raise {A} _.

Definition M (A : Type) : Type := transport -> result A * transport.

Definition ret {A : Type} (a : A) : M A := fun t => (Ret a, t).

Definition raise {A : Type} (e : exn) : M A := fun t => (Raise e, t).

Definition bind {A B : Type} (m : M A) (f : A -> M B) : M B :=
  fun t =>
    match m t with
    | (Ret a, t') => f a t'
    | (Raise e, t') => (Raise e, t')
    end.

Definition get : M transport := fun t => (Ret t, t).

Definition modify (f : transport -> transport) : M unit :=
  fun t => (Ret tt, f t).

Notation "x <- m ;; k" := (bind m (fun x => k))
  (at level 61, m at next level, right associativity).
Notation "m ;; k" := (bind m (fun _ => k))
  (at level 61, right associativity).

Definition protocol_version : Z := 3.

Definition name (k : kind) : string :=
  match k with
  | Transport => "_base_transport"
  | PollingTransport | XHRPollingTransport => "polling"
  | WebsocketTransport => "websocket"
  end.

Definition close_packet : packet := mkPacket "close" None.

(** ** Event emitter

    [socketio.event_emitter] is outside the core. An emission is recorded in
    the log, and the listeners this file registers with [once] are run:
    [pause]'s [on_poll_complete] on [poll_complete] and [drain], and
    [on_close]'s deferred [close] on [open]. *)

Inductive hook : Type := OnPollComplete | OnDrain.

Definition registered (h : hook) (c : pause_context) : bool :=
  match h with
  | OnPollComplete => on_poll_complete c
  | OnDrain => on_drain c
  end.

Definition unregister (h : hook) (c : pause_context) : pause_context :=
  match h with
  | OnPollComplete => mkContext (total c) (ev c) false (on_drain c)
  | OnDrain => mkContext (total c) (ev c) (on_poll_complete c) false
  end.

(** [context['event'].set()], when the context has an event. *)
Definition set_event (c : pause_context) : pause_context :=
  mkContext (total c)
    (match ev c with Some _ => Some true | None => None end)
    (on_poll_complete c) (on_drain c).

(** One firing of the inner [on_poll_complete] of [pause], lines 114-119:
    the counter goes down by one, and at zero the inner [pause()] runs. The
    flag says whether it ran. *)
Definition fire_context (h : hook) (c : pause_context) : pause_context * bool :=
  if registered h c then
    let c1 := unregister h c in
    let c2 := mkContext (total c1 - 1) (ev c1) (on_poll_complete c1) (on_drain c1) in
    if total c2 =? 0 then (set_event c2, true) else (c2, false)
  else (c, false).

(** Modelled from the spec: [EventEmitter.once] and [emit] of
    [socketio.event_emitter], the publish/subscribe facility, which is not
    among the sources. A listener registered with [once] runs at the next
    emission of its event and is then gone. Here all the [pause] listeners
    of one event fire, oldest first; each inner [pause()] that runs writes
    [ready_state = 'paused']. *)
Definition fire (h : hook) (t : transport) : transport :=
  let fired := map (fire_context h) (pauses t) in
  let t' := set_pauses (map fst fired) t in
  if existsb snd fired then set_ready_state (Some Paused) t' else t'.

(** Modelled from the spec: [EventEmitter.emit] for an event that has no
    listener writing to the wire: the emission is recorded, and the
    listeners of [pause] run. *)
Definition emit_plain (e : event) (t : transport) : transport :=
  let t' := record (Emit e) t in
  match e with
  | EvPollComplete => fire OnPollComplete t'
  | EvDrain => fire OnDrain t'
  | _ => t'
  end.

(** ** Collaborators

    The packet and payload codec, the HTTP client, the websocket client, the
    clock and the URL helpers of the standard library are outside the core.
    The HTTP server, the websocket and the clock may answer by the history. *)
Inductive qvalue : Type :=
| QInt : Z -> qvalue
| QStr : string -> qvalue
| QMillis : Z -> qvalue.

Record env : Type := mkEnv {
  clock : list effect -> Z;
  urlencode : list (string * qvalue) -> string;
  urljoin : string -> string -> string;
  http :
    list effect -> http_method -> string -> option wire -> option string
    -> response;
  ws_send : list effect -> wire -> bool -> option string;
  decode_packet : wire -> packet;
  decode_payload : wire -> list packet;
  encode_packet : packet -> bool -> wire;
  encode_payload : list packet -> bool -> wire
}.

Section Env.

Variable E : env.

(** [str(self.port)] *)
Definition str (z : Z) : string := NilZero.string_of_int (Z.to_int z).

(** ** [PollingTransport.uri] *)

Definition PollingTransport_schema (t : transport) : string :=
  if secure t then "https" else "http".

(** The [query] dict of [PollingTransport.uri], lines 215-225, in
    insertion order. *)
Definition PollingTransport_query (t : transport) : list (string * qvalue) :=
  [("EIO", QInt protocol_version);
   ("transport", QStr (name (cls t)));
   ("t", QMillis (clock E (log t) * 1000))]
  ++ match sid t with
     | Some s => [("sid", QStr s)]
     | None => []
     end
  ++ (if negb (supports_binary t)
         && match sid t with None => true | Some _ => false end
      then [("b64", QInt 1)] else []).

(** The local [port] of [PollingTransport.uri], lines 214 and 229-230. *)
Definition PollingTransport_port (t : transport) : string :=
  let schema := PollingTransport_schema t in
  match port t with
  | Some p =>
      if (String.eqb "https" schema && negb (p =? 443))
         || (String.eqb "http" schema && negb (p =? 80))
      then String.append ":" (str p)
      else ""
  | None => ""
  end.

Definition PollingTransport_uri (t : transport) : string :=
  let schema := PollingTransport_schema t in
  let query := urlencode E (PollingTransport_query t) in
  let port := PollingTransport_port t in
  let query :=
    if (0 <? Z.of_nat (String.length query)) then String.append "?" query
    else query in
  String.append
    (urljoin E (String.append schema
                (String.append "://" (String.append (hostname t) port)))
             (path t))
    query.

(** ** [WebsocketTransport.uri] *)

Definition WebsocketTransport_schema (t : transport) : string :=
  if secure t then "wss" else "ws".

(** The local [port] of [WebsocketTransport.uri], lines 344-350;
    [self.port] is tested for truth. *)
Definition WebsocketTransport_port (t : transport) : string :=
  let schema := WebsocketTransport_schema t in
  match port t with
  | Some p =>
      if negb (p =? 0)
         && ((String.eqb "wss" schema && negb (p =? 433))
             || (String.eqb "ws" schema && negb (p =? 80)))
      then String.append ":" (str p)
      else ""
  | None => ""
  end.

(** The [query] dict of [WebsocketTransport.uri], lines 352-362;
    [self.sid] is tested for truth. *)
Definition WebsocketTransport_query (t : transport) : list (string * qvalue) :=
  [("EIO", QInt protocol_version);
   ("transport", QStr (name (cls t)));
   ("t", QMillis (clock E (log t) * 1000))]
  ++ match sid t with
     | Some s => if String.eqb s "" then [] else [("sid", QStr s)]
     | None => []
     end
  ++ (if negb (supports_binary t) then [("b64", QInt 1)] else []).

(** [self.path.lstrip('/')] *)
Fixpoint lstrip_slash (s : string) : string :=
  match s with
  | String c r => if Ascii.eqb c "/"%char then lstrip_slash r else s
  | EmptyString => s
  end.

Definition WebsocketTransport_uri (t : transport) : string :=
  let schema := WebsocketTransport_schema t in
  let port := WebsocketTransport_port t in
  let query := String.append "?" (urlencode E (WebsocketTransport_query t)) in
  String.append schema
    (String.append "://"
       (String.append (hostname t)
          (String.append port
             (String.append "/"
                (String.append (lstrip_slash (path t)) query))))).

(** [has_key k q]: the query dict carries the key [k]. *)
Definition has_key (k : string) (q : list (string * qvalue)) : bool :=
  existsb (fun kv => String.eqb k (fst kv)) q.

(** ** [Transport] *)

Definition on_error (msg desc : string) : M unit :=
  modify (emit_plain (EvError msg desc)).

(** [XHRPollingTransport.request], for a request the HTTP client answers:
    [http] gives the response. A failure of [requests.get] or
    [requests.post] itself (no connection, no answer), which nothing in the
    file catches, is not a case of the model. *)
Definition request (data : option wire) (method : http_method) : M response :=
  fun t =>
    let content_type :=
      match method with
      | POST =>
          Some match data with
               | Some (Bytearray _) => "application/octet-stream"
               | _ => "text/plain;charset=UTF-8"
               end
      | GET => None
      end in
    let uri := PollingTransport_uri t in
    (Ret (http E (log t) method uri data content_type),
     record (Request method uri data content_type) t).

(** [300 > response.status_code >= 200] *)
Definition is_2xx (r : response) : bool :=
  (status_code r <? 300) && (200 <=? status_code r).

Definition XHRPollingTransport_do_write (data : wire) : M unit :=
  response <- request (Some data) POST ;;
  if is_2xx response then ret tt
  else on_error "xhr request failed" (content response).

Definition do_write (data : wire) : M unit :=
  t <- get ;;
  match cls t with
  | XHRPollingTransport => XHRPollingTransport_do_write data
  | PollingTransport => raise NotImplementedError
  | _ => raise AttributeError
  end.

Definition PollingTransport_write (packets : list packet) : M unit :=
  modify (set_writable false) ;;
  t <- get ;;
  let encoded := encode_payload E packets (supports_binary t) in
  do_write encoded ;;
  modify (set_writable true) ;;
  modify (emit_plain EvDrain).

Definition WebsocketTransport_on_drain : M unit :=
  modify (set_writable true) ;;
  modify (emit_plain EvDrain).

(** The loop of [WebsocketTransport.write], lines 328-334. Without a
    connected client [self.websocket] is [None]. A send either succeeds or
    fails with the [RuntimeError] line 333 catches, whose text [ws_send]
    gives; another exception of the client is not a case of the model. *)
Fixpoint WebsocketTransport_send_each (packets : list packet) : M unit :=
  match packets with
  | [] => ret tt
  | packet :: rest =>
      t <- get ;;
      let encoded_packet := encode_packet E packet (supports_binary t) in
      let binary :=
        match encoded_packet with Bytearray _ => true | Str _ => false end in
      (if websocket t then
         match ws_send E (log t) encoded_packet binary with
         | None => modify (record (WsSend encoded_packet binary))
         | Some e =>
             on_error "The websocket clsoed without a close packet (%s)" e
         end
       else raise AttributeError) ;;
      WebsocketTransport_send_each rest
  end.

Definition WebsocketTransport_write (packets : list packet) : M unit :=
  modify (set_writable false) ;;
  WebsocketTransport_send_each packets ;;
  WebsocketTransport_on_drain.

(** [self.write(packets)], by the class of [self]. *)
Definition write (packets : list packet) : M unit :=
  t <- get ;;
  match cls t with
  | Transport => raise NotImplementedError
  | PollingTransport | XHRPollingTransport => PollingTransport_write packets
  | WebsocketTransport => WebsocketTransport_write packets
  end.

(** The deferred [close] closures of [PollingTransport.on_close], run by
    the [open] event. *)
Fixpoint run_deferred (n : nat) : M unit :=
  match n with
  | O => ret tt
  | S k => write [close_packet] ;; run_deferred k
  end.

(** Modelled from the spec: [EventEmitter.emit], [self.emit(event)]. The
    [open] event runs the deferred [close] closures, each registered once;
    an exception of a listener goes to the caller of [emit]. *)
Definition emit (e : event) : M unit :=
  match e with
  | EvOpen =>
      modify (record (Emit EvOpen)) ;;
      t <- get ;;
      modify (set_deferred_close 0%nat) ;;
      run_deferred (deferred_close t)
  | _ => modify (emit_plain e)
  end.

Definition normalize (packets : packets_arg) : list packet :=
  match packets with
  | Single p => [p]
  | Sequence ps => ps
  end.

Definition send (packets : packets_arg) : M unit :=
  t <- get ;;
  if is_state Open (ready_state t) then write (normalize packets)
  else raise (ValueError "Transport not open").

Definition on_open : M unit :=
  modify (set_ready_state (Some Open)) ;;
  modify (set_writable true) ;;
  emit EvOpen.

Definition on_packet (p : packet) : M unit := emit (EvPacket p).

Definition Transport_on_close : M unit :=
  modify (set_ready_state (Some Closed)) ;;
  emit EvClose.

(** [PollingTransport.on_close], lines 186-200. *)
Definition PollingTransport_on_close : M unit :=
  t <- get ;;
  if is_state Open (ready_state t) then write [close_packet]
  else modify (fun t => set_deferred_close (S (deferred_close t)) t).

(** [self.on_close()], by the class of [self]. *)
Definition on_close : M unit :=
  t <- get ;;
  if polling_kind (cls t) then PollingTransport_on_close
  else Transport_on_close.

(** [Transport.do_close]; no class of the file overrides it. *)
Definition do_close : M unit := raise NotImplementedError.

Definition close : M unit :=
  t <- get ;;
  if is_state Opening (ready_state t) || is_state Open (ready_state t)
  then do_close ;; on_close
  else ret tt.

(** [Transport.on_data], used by the websocket read loop. *)
Definition Transport_on_data (data : wire) : M (option bool) :=
  on_packet (decode_packet E data) ;;
  ret None.

(** The [for] loop of [PollingTransport.on_data], lines 162-171. [false]
    is the early [return False]; [true] is the loop running to its end. *)
Fixpoint PollingTransport_on_data_loop (packets : list packet) : M bool :=
  match packets with
  | [] => ret true
  | packet :: rest =>
      t <- get ;;
      (if is_state Opening (ready_state t) then on_open else ret tt) ;;
      if String.eqb "close" (ptype packet) then
        on_close ;;
        ret false
      else
        on_packet packet ;;
        PollingTransport_on_data_loop rest
  end.

(** [PollingTransport.on_data]; the result is Python's [False], [True] or
    [None]. *)
Definition PollingTransport_on_data (data : wire) : M (option bool) :=
  completed <- PollingTransport_on_data_loop (decode_payload E data) ;;
  if negb completed then ret (Some false)
  else
    t <- get ;;
    if is_state Open (ready_state t)
       && match sid t with None => true | Some _ => false end
    then raise (ValueError
      "sid is none after on_open, forgot setting sid in engine_socket?")
    else if negb (is_state Closed (ready_state t)) then
      modify (set_polling false) ;;
      emit EvPollComplete ;;
      t <- get ;;
      if is_state Open (ready_state t) then ret (Some true)
      else ret None
    else ret None.

(** [self.on_data(data)], by the class of [self]. *)
Definition on_data (data : wire) : M (option bool) :=
  t <- get ;;
  if polling_kind (cls t) then PollingTransport_on_data data
  else Transport_on_data data.

(** [XHRPollingTransport.on_load], for a response that carries a
    [content-type] header, as every [response] here does; the [KeyError] of
    line 287 on a response without that header is not a case of the
    model. *)
Definition XHRPollingTransport_on_load (response : response) : M unit :=
  t <- get ;;
  let data :=
    if String.eqb (content_type response) "application/octet-stream"
    then Bytearray (list_byte_of_string (content response))
    else if negb (supports_binary t) then Str (content response)
    else Str "ok" in
  on_data data ;;
  ret tt.

Definition XHRPollingTransport_do_poll : M unit :=
  response <- request None GET ;;
  if is_2xx response then XHRPollingTransport_on_load response
  else if 400 <=? status_code response
  then on_error "xhr request failed" (content response)
  else ret tt.

Definition do_poll : M unit :=
  t <- get ;;
  match cls t with
  | XHRPollingTransport => XHRPollingTransport_do_poll
  | PollingTransport => raise NotImplementedError
  | _ => raise AttributeError
  end.

Definition poll : M unit :=
  modify (set_polling true) ;;
  do_poll ;;
  emit EvPoll.

(** ** [PollingTransport.pause]

    The caller of [pause] blocks in [Event.wait]; meanwhile the other tasks
    of the transport run and emit events. [schedule] lists the events they
    emit before the timeout elapses, in order. *)

Definition event_set (id : nat) (t : transport) : bool :=
  match nth_error (pauses t) id with
  | Some c => match ev c with Some b => b | None => false end
  | None => false
  end.

(** [context['event'].wait(timeout=timeout)] *)
Fixpoint wait (id : nat) (schedule : list event) (t : transport)
  : bool * transport :=
  if event_set id t then (true, t)
  else
    match schedule with
    | [] => (false, t)
    | e :: later => wait id later (snd (emit e t))
    end.

(** Lines 98-131 of [pause]: everything before the wait. The result is the
    index of the new context. *)
Definition pause_begin (nowait : bool) : M nat :=
  fun t =>
    let t := set_ready_state (Some Pausing) t in
    let id := List.length (pauses t) in
    let context := mkContext 0 (if nowait then None else Some false) false false in
    if polling t || negb (writable t) then
      let context :=
        if polling t
        then mkContext (total context + 1) (ev context) true (on_drain context)
        else context in
      let context :=
        if negb (writable t)
        then mkContext (total context + 1) (ev context)
               (on_poll_complete context) true
        else context in
      (Ret id, set_pauses (pauses t ++ [context]) t)
    else
      (Ret id,
       set_pauses (pauses t ++ [set_event context])
         (set_ready_state (Some Paused) t)).

Definition PollingTransport_pause (nowait : bool) (timeout : Z)
  (schedule : list event) : M unit :=
  id <- pause_begin nowait ;;
  if negb nowait then
    fun t =>
      let (paused, t') := wait id schedule t in
      if paused then (Ret tt, t')
      else (Raise (RuntimeWarning "The pause timeout"), t')
  else ret tt.

End Env.

(** ** Reading the log *)

Definition is_emit_poll_complete (x : effect) : bool :=
  match x with Emit EvPollComplete => true | _ => false end.

Definition is_emit_drain (x : effect) : bool :=
  match x with Emit EvDrain => true | _ => false end.

Definition is_emit_close (x : effect) : bool :=
  match x with Emit EvClose => true | _ => false end.

(** The packets handed to [on_packet], in order. *)
Fixpoint dispatched (l : list effect) : list packet :=
  match l with
  | [] => []
  | Emit (EvPacket p) :: r => p :: dispatched r
  | _ :: r => dispatched r
  end.

Definition is_close (p : packet) : bool := String.eqb "close" (ptype p).

(** The packets of a payload before its first [close] packet. *)
Fixpoint before_close (ps : list packet) : list packet :=
  match ps with
  | [] => []
  | p :: r => if is_close p then [] else p :: before_close r
  end.

Definition sid_known (t : transport) : bool :=
  match sid t with Some _ => true | None => false end.

(** The scheme's default port. *)
Definition default_port (t : transport) : Z :=
  if secure t then 443 else 80.

(** The rule for the optional keys of the query string: [b64] exactly when
    binary is unsupported and [sid] is unknown, [sid] exactly when known. *)
Definition query_contract (q : list (string * qvalue)) (t : transport) : Prop :=
  has_key "b64" q = negb (supports_binary t) && negb (sid_known t)
  /\ has_key "sid" q = sid_known t.

(** ** How an emission moves a transport

    [advance pc dr c] is the context [c] after its listeners have seen a
    [poll_complete] (when [pc]) and a [drain] (when [dr]). *)
Definition advance (pc dr : bool) (c : pause_context) : pause_context :=
  let c := if pc then fst (fire_context OnPollComplete c) else c in
  if dr then fst (fire_context OnDrain c) else c.

(** [evolves t t' l]: [t'] is [t] after the effects [l], none of which
    touched the configuration, the session id or the polling flag; the
    [pause] contexts moved by the events of [l] and by nothing else, and
    [ready_state] was written only by a [pause] that completed. *)
Record evolves (t t' : transport) (l : list effect) : Prop := mkEvolves {
  ev_log : log t' = log t ++ l;
  ev_cls : cls t' = cls t;
  ev_sid : sid t' = sid t;
  ev_polling : polling t' = polling t;
  ev_pauses :
    pauses t' =
    map (advance (existsb is_emit_poll_complete l) (existsb is_emit_drain l))
      (pauses t);
  ev_state : ready_state t' = ready_state t \/ ready_state t' = Some Paused;
  ev_quiet :
    existsb is_emit_poll_complete l = false ->
    existsb is_emit_drain l = false ->
    ready_state t' = ready_state t;
  ev_paused :
    forall n c c',
      nth_error (pauses t) n = Some c ->
      nth_error (pauses t') n = Some c' ->
      ev c = Some false -> ev c' = Some true ->
      ready_state t' = Some Paused
}.

(** A method all of whose runs evolve the transport by effects satisfying
    [Q], whether it returns or raises. *)
Definition respects {A : Type} (Q : list effect -> Prop) (m : M A) : Prop :=
  forall t, exists l, evolves t (snd (m t)) l /\ Q l.

(** The effects a write can have: requests, frames, and the [drain] and
    [error] events. *)
Definition write_effect (x : effect) : bool :=
  match x with
  | Emit EvDrain | Emit (EvError _ _) | Request _ _ _ _ | WsSend _ _ => true
  | _ => false
  end.

Definition silent (l : list effect) : Prop := forallb write_effect l = true.

(** [carries t t' l]: [t'] is [t] after the effects [l], with the class,
    the session id and the polling flag as they were. *)
Record carries (t t' : transport) (l : list effect) : Prop := mkCarries {
  ca_log : log t' = log t ++ l;
  ca_cls : cls t' = cls t;
  ca_sid : sid t' = sid t;
  ca_polling : polling t' = polling t
}.

(** The shape of the effects of one step of the loop: the packets
    dispatched, no [poll_complete], and no [close] unless allowed. *)
Definition step_effects (ps : list packet) (may_close : bool)
  (l : list effect) : Prop :=
  dispatched l = ps
  /\ existsb is_emit_poll_complete l = false
  /\ (may_close = false -> existsb is_emit_close l = false).

(** [t'] is closed only if [t] was. *)
Definition unclosed (t t' : transport) : Prop :=
  ready_state t' = Some Closed -> ready_state t = Some Closed.

(** The effects of [t'] that [t] had not yet. *)
Definition since (t t' : transport) : list effect :=
  skipn (List.length (log t)) (log t').

(** ** Concrete collaborators and transports *)

Definition test_env (status : Z) (payload : list packet) : env :=
  mkEnv (fun _ => 1700000000)
    (fun q => if has_key "sid" q then "EIO=3&sid=s" else "EIO=3")
    (fun base path => String.append base path)
    (fun _ _ _ _ _ => mkResponse status "text/plain" "oops")
    (fun _ _ _ => None)
    (fun w => mkPacket "message" (Some w))
    (fun _ => payload)
    (fun _ _ => Str "4")
    (fun _ _ => Str "1:1").

Definition test_transport (k : kind) (r : option state) (s : option string)
  : transport :=
  mkTransport k "/engine.io" "localhost" (Some 8080) false s r true true false
    true [] 0%nat [].

(** The payload [[message a, close, message b]]. *)
Definition message (s : string) : packet := mkPacket "message" (Some (Str s)).

Definition payload_with_close : list packet :=
  [message "a"; close_packet; message "b"].

(** An open polling transport that knows its session id, and one that
    does not. *)
Definition open_xhr : transport :=
  test_transport XHRPollingTransport (Some Open) (Some "s").

Definition open_xhr_no_sid : transport :=
  test_transport XHRPollingTransport (Some Open) None.

(** A websocket transport that knows its session id and does not support
    binary. *)
Definition websocket_base64 : transport :=
  mkTransport WebsocketTransport "/engine.io" "localhost" (Some 8080) false
    (Some "s") (Some Open) true false false true [] 0%nat [].

(** A polling transport with a poll in flight and a write pending. *)
Definition busy_transport : transport :=
  mkTransport XHRPollingTransport "/engine.io" "localhost" (Some 8080) false
    (Some "s") (Some Open) false true true false [] 0%nat [].

(** ** Opening and reading *)

Definition set_websocket (v : bool) (t : transport) : transport :=
  mkTransport (cls t) (path t) (hostname t) (port t) (secure t) (sid t)
    (ready_state t) (writable t) (supports_binary t) (polling t) v (pauses t)
    (deferred_close t) (log t).

Section Driving.

Variable E : env.

(** [WebsocketTransport.do_open], lines 307-312, when the connection
    succeeds: the client object is stored and [on_open] runs. The read job
    it spawns runs later, as [WebsocketTransport_read]. *)
Definition WebsocketTransport_do_open : M unit :=
  modify (set_websocket true) ;;
  on_open E.

(** [WebsocketTransport._read], lines 314-323: [frames] are the messages
    [receive()] returns before it returns [None]. *)
Fixpoint WebsocketTransport_read (frames : list wire) : M unit :=
  match frames with
  | [] => ret tt
  | msg :: later =>
      on_data E msg ;;
      WebsocketTransport_read later
  end.

(** The [while] loop of [PollingTransport.do_open], lines 156-157, run for
    at most [fuel] polls; [None] when the transport is still open then. *)
Fixpoint poll_while_open (fuel : nat) (t : transport)
  : option (result unit * transport) :=
  if is_state Open (ready_state t) then
    match fuel with
    | O => None
    | S k =>
        match poll E t with
        | (Ret _, t') => poll_while_open k t'
        | (Raise e, t') => Some (Raise e, t')
        end
    end
  else Some (Ret tt, t).

(** [PollingTransport.do_open], lines 149-157. *)
Definition PollingTransport_do_open (fuel : nat) (t : transport)
  : option (result unit * transport) :=
  match poll E t with
  | (Ret _, t') => poll_while_open fuel t'
  | (Raise e, t') => Some (Raise e, t')
  end.

(** [self.do_open()], by the class of [self]. *)
Definition do_open (fuel : nat) (t : transport)
  : option (result unit * transport) :=
  match cls t with
  | Transport => Some (Raise NotImplementedError, t)
  | PollingTransport | XHRPollingTransport => PollingTransport_do_open fuel t
  | WebsocketTransport => Some (WebsocketTransport_do_open t)
  end.

(** [Transport.open], lines 39-42. *)
Definition open (fuel : nat) (t : transport)
  : option (result unit * transport) :=
  if is_state Closed (ready_state t)
     || match ready_state t with None => true | Some _ => false end
  then do_open fuel (set_ready_state (Some Opening) t)
  else Some (Ret tt, t).

(** The effect of one packet of [WebsocketTransport.write]: its frame, or
    the [error] event of a failed send. *)
Definition frame_or_error (binary_ok : bool) (p : packet) (x : effect) : Prop :=
  let encoded := encode_packet E p binary_ok in
  x = WsSend encoded
        match encoded with Bytearray _ => true | Str _ => false end
  \/ exists e,
       x = Emit (EvError "The websocket clsoed without a close packet (%s)" e).

End Driving.

(** The other tasks emit [events], one after the other, none of them
    [open]. *)
Definition emit_all (events : list event) (t : transport) : transport :=
  fold_left (fun t e => emit_plain e t) events t.

(** A context of [pause] that still waits: its counter is the number of
    its listeners, and there is at least one. *)
Definition waiting (c : pause_context) : Prop :=
  total c = (if on_poll_complete c then 1 else 0)
            + (if on_drain c then 1 else 0)
  /\ on_poll_complete c || on_drain c = true.

(** What [WebsocketTransport.write] does for [packets] on a connected
    client, the client answering by the [history] so far: for each packet
    its frame when the send succeeds, the [error] event when it fails. *)
Fixpoint websocket_effects (E : env) (binary_ok : bool)
  (history : list effect) (packets : list packet) : list effect :=
  match packets with
  | [] => []
  | p :: rest =>
      let encoded := encode_packet E p binary_ok in
      let binary :=
        match encoded with Bytearray _ => true | Str _ => false end in
      let x :=
        match ws_send E history encoded binary with
        | None => WsSend encoded binary
        | Some e =>
            Emit (EvError "The websocket clsoed without a close packet (%s)" e)
        end in
      x :: websocket_effects E binary_ok (history ++ [x]) rest
  end.

(** The frame of a packet. *)
Definition frame (E : env) (binary_ok : bool) (p : packet) : effect :=
  WsSend (encode_packet E p binary_ok)
    match encode_packet E p binary_ok with
    | Bytearray _ => true
    | Str _ => false
    end.

(** The transport after [n] polls, one after the other. *)
Fixpoint after_polls (E : env) (n : nat) (t : transport) : transport :=
  match n with
  | O => t
  | S k => after_polls E k (snd (poll E t))
  end.

(** Each of the first [n] polls returns and leaves the transport open. *)
Fixpoint keeps_open (E : env) (n : nat) (t : transport) : bool :=
  match n with
  | O => true
  | S k =>
      match poll E t with
      | (Ret _, t') => is_state Open (ready_state t') && keeps_open E k t'
      | (Raise _, _) => false
      end
  end.

(** A context none of whose listeners is registered any more. *)
Definition inert (c : pause_context) : bool :=
  negb (on_poll_complete c) && negb (on_drain c).

(** The [packet] events of a list of packets. *)
Definition packet_events (ps : list packet) : list effect :=
  map (fun p => Emit (EvPacket p)) ps.

Definition record_all (l : list effect) (t : transport) : transport :=
  fold_left (fun t x => record x t) l t.

(** The content type [request] gives a POST of [data]. *)
Definition post_content_type (data : wire) : string :=
  match data with
  | Bytearray _ => "application/octet-stream"
  | Str _ => "text/plain;charset=UTF-8"
  end.

(** The data [on_load] hands to [on_data] for a response, lines 287-294. *)
Definition response_data (binary_ok : bool) (r : response) : wire :=
  if String.eqb (content_type r) "application/octet-stream"
  then Bytearray (list_byte_of_string (content r))
  else if negb binary_ok then Str (content r)
  else Str "ok".

(** A server that answers every request with status 500, and a websocket
    whose sends fail on binary frames. *)
Definition failing_env : env := test_env 500 [].

Definition flaky_ws_env : env :=
  mkEnv (fun _ => 1700000000)
    (fun _ => "EIO=3")
    (fun base path => String.append base path)
    (fun _ _ _ _ _ => mkResponse 200 "text/plain" "ok")
    (fun _ w _ => match w with Bytearray _ => Some "closed" | Str _ => None end)
    (fun w => mkPacket "message" (Some w))
    (fun _ => [])
    (fun p _ => match pdata p with Some w => w | None => Str "" end)
    (fun _ _ => Str "1:1").

(** A server whose first payload is a message and whose later payloads
    are a close packet. *)
Definition two_step_env : env :=
  mkEnv (fun _ => 1700000000)
    (fun _ => "EIO=3")
    (fun base path => String.append base path)
    (fun history method _ _ _ =>
       match method, history with
       | GET, [] => mkResponse 200 "text/plain" "first"
       | GET, _ => mkResponse 200 "text/plain" "second"
       | POST, _ => mkResponse 200 "text/plain" "ok"
       end)
    (fun _ _ _ => None)
    (fun w => mkPacket "message" (Some w))
    (fun w =>
       match w with
       | Str s => if String.eqb s "second" then [close_packet]
                  else [message "a"]
       | Bytearray _ => []
       end)
    (fun _ _ => Str "4")
    (fun _ _ => Str "1:1").

(** A new base64 polling transport that knows its session id and carries a
    pause context waiting for a poll and a write. *)
Definition armed_transport : transport :=
  mkTransport XHRPollingTransport "/engine.io" "localhost" (Some 8080) false
    (Some "s") None true false false false [mkContext 2 None true true]
    0%nat [].

Definition open_websocket : transport :=
  test_transport WebsocketTransport (Some Open) (Some "s").

Definition fresh_xhr : transport :=
  init XHRPollingTransport "/engine.io" "localhost" (Some 8080) false false.

Definition idle_transport : transport := open_xhr.

(** An open polling transport with a poll in flight and nothing to write. *)
Definition polling_transport : transport :=
  mkTransport XHRPollingTransport "/engine.io" "localhost" (Some 8080) false
    (Some "s") (Some Open) true true true false [] 0%nat [].

End Transports.

(** * The binary codec *)

Section BinaryFacts.

Import Binary.

(** Induction over a data tree, with the hypothesis available for every
    element of an array and every value of a map. *)
Lemma tree_ind (P : tree -> Prop) :
  P Null ->
  (forall b, P (Bool b)) ->
  (forall z, P (Num z)) ->
  (forall s, P (Text s)) ->
  (forall b, P (Blob b)) ->
  (forall l, Forall P l -> P (Arr l)) ->
  (forall m, Forall (fun kv => P (snd kv)) m -> P (Map m)) ->
  forall d, P d.
Proof.
  intros HNull HBool HNum HText HBlob HArr HMap.
  fix IH 1.
  intros [ | b | z | s | b | l | m ].
  - exact HNull.
  - apply HBool.
  - apply HNum.
  - apply HText.
  - apply HBlob.
  - apply HArr. induction l as [ | x r IHr ]; constructor; [ apply IH | exact IHr ].
  - apply HMap. induction m as [ | [k v] r IHr ]; constructor;
      [ apply IH | exact IHr ].
Qed.

Lemma deconstruct_Arr (l : list tree) (b : list (list byte)) :
  deconstruct (Arr l) b =
  (Arr (fst (deconstruct_items l b)), snd (deconstruct_items l b)).
Proof.
  simpl.
  match goal with
  | |- (let (_, _) := ?f l b in _) = _ =>
      assert (E : forall l b, f l b = deconstruct_items l b)
  end.
  { clear. induction l as [ | x r IHr ]; intros b; simpl; [ reflexivity | ].
    destruct (deconstruct x b) as [x' b1]. rewrite IHr. reflexivity. }
  rewrite E. destruct (deconstruct_items l b). reflexivity.
Qed.

Lemma deconstruct_Map (m : list (string * tree)) (b : list (list byte)) :
  deconstruct (Map m) b =
  (Map (fst (deconstruct_entries m b)), snd (deconstruct_entries m b)).
Proof.
  simpl.
  match goal with
  | |- (let (_, _) := ?f m b in _) = _ =>
      assert (E : forall m b, f m b = deconstruct_entries m b)
  end.
  { clear. induction m as [ | [k v] r IHr ]; intros b; simpl; [ reflexivity | ].
    destruct (deconstruct v b) as [v' b1]. rewrite IHr. reflexivity. }
  rewrite E. destruct (deconstruct_entries m b). reflexivity.
Qed.

Lemma reconstruct_Arr (l : list tree) (b : list (list byte)) :
  reconstruct (Arr l) b = option_map Arr (reconstruct_items l b).
Proof.
  simpl. f_equal.
  induction l as [ | x r IHr ]; simpl; [ reflexivity | ].
  rewrite IHr. reflexivity.
Qed.

Lemma reconstruct_Map (m : list (string * tree)) (b : list (list byte)) :
  reconstruct (Map m) b =
  if is_placeholder m then
    match lookup "_placeholder" m, lookup "num" m with
    | _, Some (Num i) => option_map Blob (py_index b i)
    | _, _ => None
    end
  else option_map Map (reconstruct_entries m b).
Proof.
  simpl. destruct (is_placeholder m).
  - destruct (lookup "_placeholder" m); reflexivity.
  - f_equal. induction m as [ | [k v] r IHr ]; simpl; [ reflexivity | ].
    rewrite IHr. reflexivity.
Qed.

Lemma placeholder_free_Arr (l : list tree) :
  placeholder_free (Arr l) = forallb placeholder_free l.
Proof.
  simpl. induction l as [ | x r IHr ]; simpl; [ reflexivity | ].
  rewrite IHr. reflexivity.
Qed.

Lemma placeholder_free_Map (m : list (string * tree)) :
  placeholder_free (Map m) =
  negb (is_placeholder m) && forallb (fun kv => placeholder_free (snd kv)) m.
Proof.
  simpl. f_equal. induction m as [ | [k v] r IHr ]; simpl; [ reflexivity | ].
  rewrite IHr. reflexivity.
Qed.

(** Deconstruction turns no value into the boolean [true] and leaves the
    boolean [true] alone. *)
Lemma deconstruct_Bool_true (v : tree) (b : list (list byte)) :
  fst (deconstruct v b) = Bool true <-> v = Bool true.
Proof.
  destruct v as [ | x | z | s | x | l | m ];
    try (simpl; split; intros H; (exact H || discriminate H)).
  - rewrite deconstruct_Arr. simpl. split; discriminate.
  - rewrite deconstruct_Map. simpl. split; discriminate.
Qed.

(** A map of the data is a placeholder after deconstruction just when it
    was one before. *)
Lemma is_placeholder_deconstruct_entries (m : list (string * tree))
  (b : list (list byte)) :
  is_placeholder (fst (deconstruct_entries m b)) = is_placeholder m.
Proof.
  unfold is_placeholder. revert b.
  induction m as [ | [k v] r IHr ]; intros b; [ reflexivity | ].
  cbn [deconstruct_entries].
  pose proof (deconstruct_Bool_true v b) as Hv.
  destruct (deconstruct v b) as [v' b1]. cbn [fst] in Hv.
  specialize (IHr b1).
  destruct (deconstruct_entries r b1) as [r' b2]. cbn [fst lookup] in *.
  destruct (String.eqb "_placeholder" k).
  - destruct Hv as [H1 H2].
    destruct v' as [ | [ | ] | | | | | ];
      destruct v as [ | [ | ] | | | | | ];
      try reflexivity;
      first [ specialize (H1 eq_refl); discriminate H1
            | specialize (H2 eq_refl); discriminate H2 ].
  - exact IHr.
Qed.

Lemma py_index_app (bufs rest : list (list byte)) (b : list byte) :
  py_index (bufs ++ b :: rest) (Z.of_nat (List.length bufs)) = Some b.
Proof.
  unfold py_index. rewrite length_app. simpl.
  replace ((0 <=? Z.of_nat (List.length bufs))
           && (Z.of_nat (List.length bufs)
               <? Z.of_nat (List.length bufs + S (List.length rest)))) with true.
  - rewrite Nat2Z.id, nth_error_app2 by lia.
    rewrite Nat.sub_diag. reflexivity.
  - symmetry. apply andb_true_iff. split; [ apply Z.leb_le | apply Z.ltb_lt ]; lia.
Qed.

(** Deconstruction only appends to the buffer list. *)
Lemma deconstruct_extends (d : tree) :
  forall bufs, exists ext, snd (deconstruct d bufs) = bufs ++ ext.
Proof.
  induction d as [ | b | z | s | b | l IHl | m IHm ] using tree_ind; intros bufs;
    try (exists []; simpl; rewrite app_nil_r; reflexivity).
  - exists [b]. reflexivity.
  - rewrite deconstruct_Arr. cbn [snd]. revert bufs.
    induction IHl as [ | x r Hx _ IHr ]; intros bufs.
    + exists []. simpl. rewrite app_nil_r. reflexivity.
    + cbn [deconstruct_items]. destruct (Hx bufs) as [e1 E1].
      destruct (deconstruct x bufs) as [x' b1]. cbn [snd] in E1. subst b1.
      destruct (IHr (bufs ++ e1)) as [e2 E2].
      destruct (deconstruct_items r (bufs ++ e1)) as [r' b2].
      cbn [snd] in *. subst b2. exists (e1 ++ e2). rewrite app_assoc. reflexivity.
  - rewrite deconstruct_Map. cbn [snd]. revert bufs.
    induction IHm as [ | [k v] r Hv _ IHr ]; intros bufs.
    + exists []. simpl. rewrite app_nil_r. reflexivity.
    + cbn [deconstruct_entries]. cbn [snd] in Hv. destruct (Hv bufs) as [e1 E1].
      destruct (deconstruct v bufs) as [v' b1]. cbn [snd] in E1. subst b1.
      destruct (IHr (bufs ++ e1)) as [e2 E2].
      destruct (deconstruct_entries r (bufs ++ e1)) as [r' b2].
      cbn [snd] in *. subst b2. exists (e1 ++ e2). rewrite app_assoc. reflexivity.
Qed.

Lemma deconstruct_items_extends (l : list tree) :
  forall bufs, exists ext, snd (deconstruct_items l bufs) = bufs ++ ext.
Proof.
  intros bufs. destruct (deconstruct_extends (Arr l) bufs) as [e E].
  rewrite deconstruct_Arr in E. exists e. exact E.
Qed.

Lemma deconstruct_entries_extends (m : list (string * tree)) :
  forall bufs, exists ext, snd (deconstruct_entries m bufs) = bufs ++ ext.
Proof.
  intros bufs. destruct (deconstruct_extends (Map m) bufs) as [e E].
  rewrite deconstruct_Map in E. exists e. exact E.
Qed.

(** The round trip on a tree, for a traversal that starts with any buffers
    already collected and a buffer list that may be longer. *)
Lemma reconstruct_deconstruct (d : tree) :
  placeholder_free d = true ->
  forall bufs more,
    reconstruct (fst (deconstruct d bufs)) (snd (deconstruct d bufs) ++ more)
    = Some d.
Proof.
  induction d as [ | b | z | s | b | l IHl | m IHm ] using tree_ind;
    intros Hfree bufs more; try reflexivity.
  - cbn [deconstruct fst snd]. unfold placeholder.
    rewrite reconstruct_Map. cbn.
    rewrite <- app_assoc. cbn [app]. rewrite py_index_app. reflexivity.
  - rewrite deconstruct_Arr. cbn [fst snd]. rewrite reconstruct_Arr.
    rewrite placeholder_free_Arr in Hfree.
    enough (E : reconstruct_items (fst (deconstruct_items l bufs))
                  (snd (deconstruct_items l bufs) ++ more) = Some l)
      by (rewrite E; reflexivity).
    revert bufs more.
    induction IHl as [ | x r Hx _ IHr ]; intros bufs more; [ reflexivity | ].
    cbn [forallb] in Hfree. apply andb_true_iff in Hfree as [Fx Fr].
    cbn [deconstruct_items].
    specialize (Hx Fx bufs). specialize (IHr Fr).
    destruct (deconstruct x bufs) as [x' b1]. cbn [fst snd] in Hx.
    specialize (IHr b1).
    destruct (deconstruct_items_extends r b1) as [e2 E2].
    destruct (deconstruct_items r b1) as [r' b2]. cbn [fst snd] in *. subst b2.
    cbn [reconstruct_items].
    rewrite (IHr more), <- app_assoc, Hx. reflexivity.
  - rewrite deconstruct_Map. cbn [fst snd]. rewrite reconstruct_Map.
    rewrite placeholder_free_Map in Hfree.
    apply andb_true_iff in Hfree as [Hm Hfree].
    rewrite is_placeholder_deconstruct_entries.
    apply negb_true_iff in Hm. rewrite Hm. clear Hm.
    enough (E : reconstruct_entries (fst (deconstruct_entries m bufs))
                  (snd (deconstruct_entries m bufs) ++ more) = Some m)
      by (rewrite E; reflexivity).
    revert bufs more.
    induction IHm as [ | [k v] r Hv _ IHr ]; intros bufs more; [ reflexivity | ].
    cbn [forallb snd] in Hfree, Hv. apply andb_true_iff in Hfree as [Fv Fr].
    cbn [deconstruct_entries].
    specialize (Hv Fv bufs). specialize (IHr Fr).
    destruct (deconstruct v bufs) as [v' b1]. cbn [fst snd] in Hv.
    specialize (IHr b1).
    destruct (deconstruct_entries_extends r b1) as [e2 E2].
    destruct (deconstruct_entries r b1) as [r' b2]. cbn [fst snd] in *. subst b2.
    cbn [reconstruct_entries].
    rewrite (IHr more), <- app_assoc, Hv. reflexivity.
Qed.

(** [test_deconstruct_packet]: the buffer counts and the attachment count
    of the test data. *)
Example test_deconstruct_packet :
  List.length (d_buffers (deconstruct_packet (event (Text "what the hell")))) = 0%nat
  /\ attachments (d_packet (deconstruct_packet
                              (event (Blob (bytearray [0; 1; 2]))))) = Some 1
  /\ List.length (d_buffers (deconstruct_packet
                               (event (Blob (bytearray [0; 1; 2]))))) = 1%nat
  /\ List.length (d_buffers (deconstruct_packet (event test_list))) = 2%nat
  /\ List.length (d_buffers (deconstruct_packet (event test_dict))) = 2%nat.
Proof. repeat split. Qed.

(** [test_reconstruct_packet]: the values the test reads back. *)
Example test_reconstruct_packet :
  let back D :=
    let results := deconstruct_packet (event D) in
    reconstruct_packet (d_packet results) (d_buffers results) in
  option_map ptype (back (Text "what the hell")) = Some "event"
  /\ option_map data (back (Text "what the hell")) = Some (Text "what the hell")
  /\ option_map data (back (Blob (bytearray [0; 1; 2])))
     = Some (Blob (bytearray [0; 1; 2]))
  /\ option_map data (back test_list) = Some test_list
  /\ option_map data (back test_dict) = Some test_dict
  /\ option_map data (back test_dict_bool) = Some test_dict_bool.
Proof. repeat split. Qed.

(** C1, as amended: for every data tree [D] of arrays, maps, text, numbers,
    booleans, null and raw binary blobs in which no map is itself a
    placeholder object, reconstructing the packet from the skeleton and the
    buffers of [deconstruct_packet {type: 'event', data: D}] succeeds and
    gives back [D] as its data. *)
Theorem round_trip_placeholder_free (D : tree) :
  placeholder_free D = true -> round_trip D.
Proof.
  intros Hfree. unfold round_trip, deconstruct_packet, reconstruct_packet, event.
  cbn [data].
  pose proof (reconstruct_deconstruct D Hfree [] []) as E.
  destruct (deconstruct D []) as [skeleton buffers].
  cbn [fst snd d_packet d_buffers data] in *.
  rewrite app_nil_r in E. rewrite E. reflexivity.
Qed.

Lemma round_trip_placeholder_free_witness :
  placeholder_free test_dict = true /\ round_trip test_dict.
Proof.
  split; [ reflexivity | apply (round_trip_placeholder_free test_dict); reflexivity ].
Defined.

(** C1, as stated, fails: a map of the data that has the shape of a
    placeholder comes back as the buffer it names. *)
Lemma round_trip_lookalike : ~ round_trip lookalike.
Proof.
  unfold round_trip. vm_compute. intros H. discriminate H.
Qed.

End BinaryFacts.

(** * The transports *)

Section TransportFacts.

Import Transports.

(** ** [Transport.close] *)

(** C3, on the code: in state [opening] or [open], [close()] of a transport
    of any class stops in [do_close] with [NotImplementedError]; the state
    is left as it was, [ready_state] included, and nothing is emitted. *)
Theorem close_raises (E : env) (t : transport) :
  ready_state t = Some Opening \/ ready_state t = Some Open ->
  close E t = (Raise NotImplementedError, t).
Proof.
  intros [H | H]; unfold close, bind, get, do_close, raise; rewrite H; reflexivity.
Qed.

Lemma close_raises_witness :
  close (test_env 200 []) open_xhr = (Raise NotImplementedError, open_xhr).
Proof.
  apply (close_raises (test_env 200 []) open_xhr). right. reflexivity.
Defined.

(** In every other state [close()] does nothing. *)
Lemma close_noop (E : env) (t : transport) :
  ready_state t <> Some Opening -> ready_state t <> Some Open ->
  close E t = (Ret tt, t).
Proof.
  intros H1 H2. unfold close, bind, get.
  destruct (ready_state t) as [ [ | | | | | ] | ]; try reflexivity;
    exfalso; (apply H1; reflexivity) || (apply H2; reflexivity).
Qed.

(** ** [Transport.send] *)

(** C6: when [ready_state] is not [open], [send] raises
    [ValueError("Transport not open")] and leaves the transport, its log
    included, as it was; when it is [open], a single packet is sent as
    [write([packet])] and a sequence as [write(packets)]. *)
Theorem send_spec (E : env) (t : transport) :
  (ready_state t <> Some Open ->
   forall packets,
     send E packets t = (Raise (ValueError "Transport not open"), t))
  /\ (ready_state t = Some Open ->
      (forall p, send E (Single p) t = write E [p] t)
      /\ (forall ps, send E (Sequence ps) t = write E ps t)).
Proof.
  split.
  - intros H packets. unfold send, bind, get, raise.
    destruct (ready_state t) as [ [ | | | | | ] | ]; try reflexivity.
    exfalso. apply H. reflexivity.
  - intros H. unfold send, bind, get. rewrite H. split; reflexivity.
Qed.

Lemma send_spec_witness :
  (forall packets,
     send (test_env 200 []) packets
       (test_transport WebsocketTransport (Some Closed) None)
     = (Raise (ValueError "Transport not open"),
        test_transport WebsocketTransport (Some Closed) None))
  /\ (forall p,
        send (test_env 200 []) (Single p)
          (test_transport WebsocketTransport (Some Open) None)
        = write (test_env 200 []) [p]
            (test_transport WebsocketTransport (Some Open) None)).
Proof.
  split.
  - apply (send_spec (test_env 200 [])
             (test_transport WebsocketTransport (Some Closed) None)).
    simpl. discriminate.
  - apply (send_spec (test_env 200 [])
             (test_transport WebsocketTransport (Some Open) None)).
    reflexivity.
Defined.

(** ** [uri] *)

Lemma port_segment_nonempty (p : Z) : String.append ":" (str p) <> "".
Proof. simpl. discriminate. Qed.

(** The polling transport leaves the port out just when it is unset or the
    default of the scheme. *)
Lemma PollingTransport_port_spec (t : transport) :
  match port t with
  | None => PollingTransport_port t = ""
  | Some p =>
      (p = default_port t -> PollingTransport_port t = "")
      /\ (p <> default_port t
          -> PollingTransport_port t = String.append ":" (str p))
  end.
Proof.
  unfold PollingTransport_port, PollingTransport_schema, default_port.
  destruct (port t) as [p | ]; [ | reflexivity ].
  destruct (secure t); cbn [String.eqb andb orb];
    change (String.eqb "https" "https") with true;
    change (String.eqb "http" "https") with false;
    change (String.eqb "https" "http") with false;
    change (String.eqb "http" "http") with true;
    cbn [andb orb]; rewrite ?orb_false_r;
    split; intros H.
  - subst p. reflexivity.
  - apply Z.eqb_neq in H. rewrite H. reflexivity.
  - subst p. reflexivity.
  - apply Z.eqb_neq in H. rewrite H. reflexivity.
Qed.

(** Without TLS the websocket transport does the same for port 80. *)
Lemma WebsocketTransport_port_ws (t : transport) (p : Z) :
  secure t = false -> port t = Some p -> p <> 0 ->
  (p = 80 -> WebsocketTransport_port t = "")
  /\ (p <> 80 -> WebsocketTransport_port t = String.append ":" (str p)).
Proof.
  intros Hs Hp H0. unfold WebsocketTransport_port, WebsocketTransport_schema.
  rewrite Hs, Hp. apply Z.eqb_neq in H0. rewrite H0.
  change (String.eqb "wss" "ws") with false.
  change (String.eqb "ws" "ws") with true.
  cbn [negb andb orb]. split; intros H.
  - subst p. reflexivity.
  - apply Z.eqb_neq in H. rewrite H. reflexivity.
Qed.

(** C7, on the code: with TLS the websocket transport compares the port
    with 433. The default port 443 of [wss] is written into the URI, and
    port 433 is left out. *)
Theorem WebsocketTransport_port_wss (t : transport) :
  secure t = true ->
  (port t = Some 443 -> WebsocketTransport_port t = ":443")
  /\ (port t = Some 433 -> WebsocketTransport_port t = "").
Proof.
  intros Hs. unfold WebsocketTransport_port, WebsocketTransport_schema.
  rewrite Hs. split; intros Hp; rewrite Hp; reflexivity.
Qed.

Lemma WebsocketTransport_port_wss_witness :
  WebsocketTransport_port
    (init WebsocketTransport "/engine.io" "localhost" (Some 443) true false)
  = ":443".
Proof.
  apply (WebsocketTransport_port_wss
           (init WebsocketTransport "/engine.io" "localhost" (Some 443) true false));
    reflexivity.
Defined.

(** The segment is part of the URI the websocket client is given. *)
Example WebsocketTransport_uri_wss_443 :
  WebsocketTransport_uri (test_env 200 [])
    (init WebsocketTransport "/engine.io" "localhost" (Some 443) true false)
  = "wss://localhost:443/engine.io?EIO=3".
Proof. reflexivity. Qed.

Example PollingTransport_uri_https_443 :
  PollingTransport_uri (test_env 200 [])
    (init XHRPollingTransport "/engine.io" "localhost" (Some 443) true false)
  = "https://localhost/engine.io?EIO=3".
Proof. reflexivity. Qed.

Lemma has_key_app (k : string) (a b : list (string * qvalue)) :
  has_key k (a ++ b) = has_key k a || has_key k b.
Proof. unfold has_key. apply existsb_app. Qed.

(** C8, as amended: both queries are [EIO=3], [transport=<name>] (the
    name of the class: [polling], [websocket]) and [t=<seconds * 1000>],
    followed by the optional entries. The polling query carries
    [sid=<sid>] exactly when [sid] is set, and [b64=1] exactly when binary is
    unsupported and [sid] is unset; the websocket query carries
    [sid=<sid>] exactly when [sid] is set and not empty, and [b64=1] exactly
    when binary is unsupported, whether or not [sid] is known. Nothing else
    is in either query. *)
Theorem query_optional_keys (E : env) (t : transport) :
  ((query_contract (PollingTransport_query E t) t
    /\ has_key "b64" (WebsocketTransport_query E t) = negb (supports_binary t)
    /\ has_key "sid" (WebsocketTransport_query E t)
       = match sid t with
         | Some s => negb (String.eqb s "")
         | None => false
         end)
   /\ forallb (fun k => has_key k (PollingTransport_query E t)
                         && has_key k (WebsocketTransport_query E t))
        ["EIO"; "transport"; "t"] = true)
  /\ PollingTransport_query E t
     = [("EIO", QInt 3);
        ("transport",
         QStr match cls t with
              | Transport => "_base_transport"
              | PollingTransport | XHRPollingTransport => "polling"
              | WebsocketTransport => "websocket"
              end);
        ("t", QMillis (clock E (log t) * 1000))]
       ++ match sid t with
          | Some s => [("sid", QStr s)]
          | None => if supports_binary t then [] else [("b64", QInt 1)]
          end
  /\ WebsocketTransport_query E t
     = [("EIO", QInt 3);
        ("transport",
         QStr match cls t with
              | Transport => "_base_transport"
              | PollingTransport | XHRPollingTransport => "polling"
              | WebsocketTransport => "websocket"
              end);
        ("t", QMillis (clock E (log t) * 1000))]
       ++ match sid t with
          | Some s => if String.eqb s "" then [] else [("sid", QStr s)]
          | None => []
          end
       ++ (if supports_binary t then [] else [("b64", QInt 1)]).
Proof.
  split; [ | split ].
  - unfold query_contract, PollingTransport_query, WebsocketTransport_query,
      sid_known.
    split.
    + rewrite !has_key_app.
      destruct (sid t) as [s | ]; destruct (supports_binary t);
        repeat split; try reflexivity;
        destruct (String.eqb s ""); reflexivity.
    + cbn [forallb]. rewrite !has_key_app. reflexivity.
  - unfold PollingTransport_query, protocol_version, name.
    destruct (cls t), (sid t), (supports_binary t); reflexivity.
  - unfold WebsocketTransport_query, protocol_version, name.
    destruct (cls t), (sid t) as [s | ], (supports_binary t);
      try destruct (String.eqb s ""); reflexivity.
Qed.

(** The values on a polling and on a websocket transport that know their
    session id. *)
Example query_values :
  PollingTransport_query (test_env 200 []) open_xhr
  = [("EIO", QInt 3); ("transport", QStr "polling");
     ("t", QMillis 1700000000000); ("sid", QStr "s")]
  /\ WebsocketTransport_query (test_env 200 []) websocket_base64
     = [("EIO", QInt 3); ("transport", QStr "websocket");
        ("t", QMillis 1700000000000); ("sid", QStr "s"); ("b64", QInt 1)].
Proof. split; reflexivity. Qed.

(** C8, as stated, fails for the websocket transport: with [sid] known and
    binary unsupported its query still carries [b64]. *)
Lemma websocket_query_b64_with_sid :
  ~ query_contract
      (WebsocketTransport_query (test_env 200 []) websocket_base64)
      websocket_base64.
Proof.
  intros [H _]. vm_compute in H. discriminate H.
Qed.

(** ** [XHRPollingTransport]: response status *)

(** C10: on a response whose status is in [300, 400), [do_poll] issues its
    GET and does nothing more: no load handler, no [error] event. [do_write]
    emits [error('xhr request failed', body)] for every status outside
    [200, 300), those in [300, 400) included. *)
Theorem xhr_status_handling (E : env) (t : transport) :
  let uri := PollingTransport_uri E t in
  (forall r,
     r = http E (log t) GET uri None None ->
     300 <= status_code r < 400 ->
     XHRPollingTransport_do_poll E t
     = (Ret tt, record (Request GET uri None None) t))
  /\ (forall data ct r,
        ct = Some match data with
                  | Bytearray _ => "application/octet-stream"
                  | Str _ => "text/plain;charset=UTF-8"
                  end ->
        r = http E (log t) POST uri (Some data) ct ->
        ~ 200 <= status_code r < 300 ->
        XHRPollingTransport_do_write E data t
        = (Ret tt,
           emit_plain (EvError "xhr request failed" (content r))
             (record (Request POST uri (Some data) ct) t))).
Proof.
  intros uri. split.
  - intros r Hr Hs. subst r uri.
    unfold XHRPollingTransport_do_poll, bind, request, is_2xx, ret.
    replace (status_code _ <? 300) with false
      by (symmetry; apply Z.ltb_ge; lia).
    replace (400 <=? status_code _) with false
      by (symmetry; apply Z.leb_gt; lia).
    reflexivity.
  - intros data ct r Hct Hr Hs. subst ct r uri.
    unfold XHRPollingTransport_do_write, bind, request, is_2xx, on_error,
      modify, ret.
    destruct data as [s | b];
      match goal with
      | |- context [ (status_code ?x <? 300) && (200 <=? status_code ?x) ] =>
          replace ((status_code x <? 300) && (200 <=? status_code x)) with false
          by (symmetry; apply andb_false_iff;
              destruct (Z.ltb_spec (status_code x) 300); [ right | left; reflexivity ];
              apply Z.leb_gt; lia)
      end; reflexivity.
Qed.

Lemma xhr_status_handling_witness :
  XHRPollingTransport_do_poll (test_env 302 []) open_xhr
  = (Ret tt,
     record (Request GET (PollingTransport_uri (test_env 302 []) open_xhr)
               None None) open_xhr)
  /\ XHRPollingTransport_do_write (test_env 302 []) (Str "1:1") open_xhr
     = (Ret tt,
        emit_plain (EvError "xhr request failed" "oops")
          (record (Request POST
                     (PollingTransport_uri (test_env 302 []) open_xhr)
                     (Some (Str "1:1")) (Some "text/plain;charset=UTF-8"))
             open_xhr)).
Proof.
  split.
  - apply (proj1 (xhr_status_handling (test_env 302 []) open_xhr)
             (http (test_env 302 []) (log open_xhr) GET
                (PollingTransport_uri (test_env 302 []) open_xhr) None None));
      [ reflexivity | simpl; lia ].
  - apply (proj2 (xhr_status_handling (test_env 302 []) open_xhr) (Str "1:1")
             (Some "text/plain;charset=UTF-8")
             (http (test_env 302 []) (log open_xhr) POST
                (PollingTransport_uri (test_env 302 []) open_xhr)
                (Some (Str "1:1")) (Some "text/plain;charset=UTF-8")));
      [ reflexivity | reflexivity | simpl; lia ].
Defined.

End TransportFacts.

(** * Emissions and the [pause] contexts *)

Section Emissions.

Import Transports.

Lemma fire_context_twice (h : hook) (c : pause_context) :
  fire_context h (fst (fire_context h c)) = (fst (fire_context h c), false).
Proof.
  unfold fire_context.
  destruct h, c as [n e p d]; cbn [registered unregister total ev
    on_poll_complete on_drain set_event];
    destruct p, d; cbn [fst]; try reflexivity;
    destruct (n - 1 =? 0); reflexivity.
Qed.

Lemma fire_context_swap (c : pause_context) :
  fst (fire_context OnPollComplete (fst (fire_context OnDrain c)))
  = fst (fire_context OnDrain (fst (fire_context OnPollComplete c))).
Proof.
  unfold fire_context.
  destruct c as [n e p d]; destruct p, d;
    cbn [fst registered unregister total ev on_poll_complete on_drain set_event];
    repeat (match goal with
            | |- context [ ?a =? 0 ] => destruct (a =? 0)
            end;
            cbn [fst registered unregister total ev on_poll_complete on_drain
                 set_event]);
    try reflexivity; destruct e; reflexivity.
Qed.

Lemma fire_context_idem (h : hook) (c : pause_context) :
  fst (fire_context h (fst (fire_context h c))) = fst (fire_context h c).
Proof. rewrite fire_context_twice. reflexivity. Qed.

Lemma advance_compose (a1 b1 a2 b2 : bool) (c : pause_context) :
  advance a2 b2 (advance a1 b1 c) = advance (a1 || a2) (b1 || b2) c.
Proof.
  unfold advance.
  destruct a1, b1, a2, b2; cbn [orb];
    repeat first [ rewrite fire_context_swap | rewrite fire_context_idem ];
    reflexivity.
Qed.

Lemma advance_none (c : pause_context) : advance false false c = c.
Proof. reflexivity. Qed.

Lemma advance_ev (a b : bool) (c : pause_context) (x : bool) :
  ev c = Some x -> exists y, ev (advance a b c) = Some y.
Proof.
  intros H. unfold advance, fire_context.
  destruct c as [n e p d]. cbn [ev] in H. subst e.
  destruct a, b, p, d;
    cbn [fst registered unregister total ev on_poll_complete on_drain set_event];
    repeat (match goal with
            | |- context [ ?a =? 0 ] => destruct (a =? 0)
            end;
            cbn [fst registered unregister total ev on_poll_complete on_drain
                 set_event]);
    eexists; reflexivity.
Qed.

Lemma evolves_refl (t : transport) : evolves t t [].
Proof.
  constructor; cbn [existsb]; auto.
  - rewrite app_nil_r. reflexivity.
  - rewrite <- (map_id (pauses t)) at 1. apply map_ext. intros c. reflexivity.
  - intros n c c' H1 H2 H3 H4. rewrite H1 in H2. injection H2 as <-.
    rewrite H3 in H4. discriminate H4.
Qed.

Lemma evolves_trans (t t' t'' : transport) (l1 l2 : list effect) :
  evolves t t' l1 -> evolves t' t'' l2 -> evolves t t'' (l1 ++ l2).
Proof.
  intros [L1 C1 S1 P1 A1 R1 Q1 D1] [L2 C2 S2 P2 A2 R2 Q2 D2].
  constructor.
  - rewrite L2, L1, app_assoc. reflexivity.
  - congruence.
  - congruence.
  - congruence.
  - rewrite A2, A1, map_map, !existsb_app. apply map_ext. intros c.
    apply advance_compose.
  - destruct R2 as [R2 | R2]; [ | right; exact R2 ].
    rewrite R2. exact R1.
  - rewrite !existsb_app. intros Hp Hd.
    apply orb_false_iff in Hp as [Hp1 Hp2].
    apply orb_false_iff in Hd as [Hd1 Hd2].
    rewrite (Q2 Hp2 Hd2). apply Q1; assumption.
  - intros n c c'' Hc Hc'' Hev Hev''.
    assert (Hc' : nth_error (pauses t') n
                  = Some (advance (existsb is_emit_poll_complete l1)
                            (existsb is_emit_drain l1) c)).
    { rewrite A1, nth_error_map, Hc. reflexivity. }
    destruct (advance_ev (existsb is_emit_poll_complete l1)
                (existsb is_emit_drain l1) c false Hev) as [[ | ] Hy].
    + destruct R2 as [R2 | R2]; [ | exact R2 ].
      rewrite R2. exact (D1 n c _ Hc Hc' Hev Hy).
    + exact (D2 n _ c'' Hc' Hc'' Hy Hev'').
Qed.

Lemma evolves_record (x : effect) (t : transport) :
  is_emit_poll_complete x = false -> is_emit_drain x = false ->
  evolves t (record x t) [x].
Proof.
  intros Hp Hd.
  constructor; cbn [existsb record log cls sid polling pauses ready_state];
    try rewrite Hp; try rewrite Hd; cbn [orb]; auto.
  - rewrite <- (map_id (pauses t)) at 1. apply map_ext. intros c. reflexivity.
  - intros n c c' H1 H2 H3 H4. rewrite H1 in H2. injection H2 as <-.
    rewrite H3 in H4. discriminate H4.
Qed.

Lemma evolves_set_writable (b : bool) (t : transport) :
  evolves t (set_writable b t) [].
Proof.
  destruct (evolves_refl t) as [L C S P A R Q D].
  constructor; assumption.
Qed.

Lemma evolves_set_deferred_close (n : nat) (t : transport) :
  evolves t (set_deferred_close n t) [].
Proof.
  destruct (evolves_refl t) as [L C S P A R Q D].
  constructor; assumption.
Qed.

(** The listeners of one event fire. *)
Lemma evolves_fire (h : hook) (e : event) (t : transport) :
  match h with
  | OnPollComplete => e = EvPollComplete
  | OnDrain => e = EvDrain
  end ->
  evolves t (fire h (record (Emit e) t)) [Emit e].
Proof.
  intros He. unfold fire.
  set (fired := map (fire_context h) (pauses (record (Emit e) t))).
  assert (Hp : pauses (if existsb snd fired
                       then set_ready_state (Some Paused)
                              (set_pauses (map fst fired) (record (Emit e) t))
                       else set_pauses (map fst fired) (record (Emit e) t))
               = map fst fired)
    by (destruct (existsb snd fired); reflexivity).
  assert (Hadv : map fst fired
                 = map (advance (existsb is_emit_poll_complete [Emit e])
                          (existsb is_emit_drain [Emit e])) (pauses t)).
  { unfold fired. cbn [record pauses]. rewrite map_map. apply map_ext.
    intros c. destruct h; subst e; reflexivity. }
  constructor.
  - destruct (existsb snd fired); reflexivity.
  - destruct (existsb snd fired); reflexivity.
  - destruct (existsb snd fired); reflexivity.
  - destruct (existsb snd fired); reflexivity.
  - rewrite Hp. exact Hadv.
  - destruct (existsb snd fired); [ right | left ]; reflexivity.
  - destruct h; subst e; cbn; intros; discriminate.
  - intros n c c' Hc Hc' Hev Hev'. rewrite Hp in Hc'.
    assert (Hs : existsb snd fired = true).
    { apply existsb_exists. exists (fire_context h c). split.
      - unfold fired. apply in_map. cbn [record pauses].
        apply nth_error_In with n. exact Hc.
      - unfold fired in Hc'. cbn [record pauses] in Hc'.
        rewrite map_map, nth_error_map, Hc in Hc'. cbn in Hc'.
        injection Hc' as <-.
        unfold fire_context in *. destruct (registered h c).
        + destruct (total _ =? 0); [ reflexivity | ].
          cbn [fst ev] in Hev'. destruct h; cbn [unregister ev] in Hev';
            rewrite Hev in Hev'; discriminate Hev'.
        + cbn [fst] in Hev'. rewrite Hev in Hev'. discriminate Hev'. }
    rewrite Hs. reflexivity.
Qed.

Lemma evolves_emit_plain (e : event) (t : transport) :
  evolves t (emit_plain e t) [Emit e].
Proof.
  unfold emit_plain.
  destruct e;
    try (apply evolves_record; reflexivity);
    apply evolves_fire; reflexivity.
Qed.

Lemma dispatched_app (l1 l2 : list effect) :
  dispatched (l1 ++ l2) = dispatched l1 ++ dispatched l2.
Proof.
  induction l1 as [ | x r IH ]; [ reflexivity | ].
  destruct x as [ [ | | | | | p | m d ] | | ]; cbn [app dispatched];
    rewrite IH; reflexivity.
Qed.

Lemma silent_app (l1 l2 : list effect) :
  silent l1 -> silent l2 -> silent (l1 ++ l2).
Proof.
  unfold silent. intros H1 H2. rewrite forallb_app, H1, H2. reflexivity.
Qed.

Lemma respects_ret {A : Type} (a : A) : respects silent (ret a).
Proof. intros t. exists []. split; [ apply evolves_refl | reflexivity ]. Qed.

Lemma respects_raise {A : Type} (e : exn) : respects silent (@raise A e).
Proof. intros t. exists []. split; [ apply evolves_refl | reflexivity ]. Qed.

Lemma respects_bind {A B : Type} (m : M A) (f : A -> M B) :
  respects silent m -> (forall a, respects silent (f a)) ->
  respects silent (bind m f).
Proof.
  intros Hm Hf t. destruct (Hm t) as [l1 [E1 Q1]]. unfold bind.
  destruct (m t) as [[a | e] t1]; cbn [snd] in E1.
  - destruct (Hf a t1) as [l2 [E2 Q2]]. exists (l1 ++ l2). split.
    + apply evolves_trans with t1; assumption.
    + apply silent_app; assumption.
  - exists l1. split; assumption.
Qed.

(** A method that first reads [self]. *)
Lemma respects_get {B : Type} (f : transport -> M B) :
  (forall t, respects silent (f t)) -> respects silent (bind get f).
Proof. intros Hf t. unfold bind, get. apply Hf. Qed.

Lemma respects_set_writable (b : bool) :
  respects silent (modify (set_writable b)).
Proof.
  intros t. exists []. split; [ apply evolves_set_writable | reflexivity ].
Qed.

Lemma respects_emit_plain (e : event) :
  write_effect (Emit e) = true -> respects silent (modify (emit_plain e)).
Proof.
  intros He t. exists [Emit e]. split; [ apply evolves_emit_plain | ].
  unfold silent. cbn [forallb]. rewrite He. reflexivity.
Qed.

Lemma respects_on_error (msg desc : string) :
  respects silent (on_error msg desc).
Proof. apply respects_emit_plain. reflexivity. Qed.

Lemma respects_request (E : env) (data : option wire) (m : http_method) :
  respects silent (request E data m).
Proof.
  intros t. eexists. split; [ apply evolves_record; reflexivity | reflexivity ].
Qed.

Create HintDb respects.

#[local] Hint Resolve respects_ret respects_raise respects_set_writable
  respects_on_error respects_request : respects.

Ltac respects_step :=
  lazymatch goal with
  | |- respects _ (bind get _) => apply respects_get; intros ?
  | |- respects _ (bind _ _) => apply respects_bind; [ | intros ? ]
  | |- respects _ (modify (emit_plain _)) =>
      apply respects_emit_plain; reflexivity
  | |- _ => solve [ auto with respects ]
  end.

Lemma respects_do_write (E : env) (data : wire) :
  respects silent (do_write E data).
Proof.
  unfold do_write. respects_step.
  destruct (cls t); auto with respects.
  unfold XHRPollingTransport_do_write. respects_step; [ auto with respects | ].
  destruct (is_2xx a); auto with respects.
Qed.

Lemma respects_PollingTransport_write (E : env) (packets : list packet) :
  respects silent (PollingTransport_write E packets).
Proof.
  unfold PollingTransport_write.
  repeat respects_step. apply respects_do_write.
Qed.

Lemma respects_WebsocketTransport_send_each (E : env) (packets : list packet) :
  respects silent (WebsocketTransport_send_each E packets).
Proof.
  induction packets as [ | p r IH ]; cbn [WebsocketTransport_send_each];
    [ auto with respects | ].
  respects_step. respects_step; [ | exact IH ].
  destruct (websocket t); [ | auto with respects ].
  destruct (ws_send E (log t) _ _); [ auto with respects | ].
  intros t'. eexists. split; [ apply evolves_record; reflexivity | reflexivity ].
Qed.

Lemma respects_WebsocketTransport_write (E : env) (packets : list packet) :
  respects silent (WebsocketTransport_write E packets).
Proof.
  unfold WebsocketTransport_write, WebsocketTransport_on_drain.
  repeat respects_step. apply respects_WebsocketTransport_send_each.
Qed.

Lemma respects_write (E : env) (packets : list packet) :
  respects silent (write E packets).
Proof.
  unfold write. respects_step.
  destruct (cls t); auto with respects.
  - apply respects_PollingTransport_write.
  - apply respects_PollingTransport_write.
  - apply respects_WebsocketTransport_write.
Qed.

Lemma respects_run_deferred (E : env) (n : nat) :
  respects silent (run_deferred E n).
Proof.
  induction n as [ | k IH ]; cbn [run_deferred]; [ auto with respects | ].
  respects_step; [ apply respects_write | exact IH ].
Qed.

(** What [emit] does: the event is recorded first, only a [packet] event
    dispatches a packet, and the transport evolves. *)
Lemma emit_evolves (E : env) (e : event) (t : transport) :
  exists l,
    evolves t (snd (emit E e t)) (Emit e :: l)
    /\ silent l.
Proof.
  destruct e;
    try (exists []; split; [ apply evolves_emit_plain | reflexivity ]).
  cbn [emit]. unfold bind, modify, get.
  destruct (respects_run_deferred E (deferred_close (record (Emit EvOpen) t))
              (set_deferred_close 0 (record (Emit EvOpen) t)))
    as [l [El Ql]].
  exists l. split; [ | exact Ql ].
  change (Emit EvOpen :: l) with ([Emit EvOpen] ++ ([] ++ l)).
  eapply evolves_trans; [ apply evolves_record; reflexivity | ].
  eapply evolves_trans; [ apply evolves_set_deferred_close | exact El ].
Qed.

End Emissions.

(** * [PollingTransport.pause] *)

Section Pause.

Import Transports.

Lemma since_app (t t' : transport) (l : list effect) :
  log t' = log t ++ l -> since t t' = l.
Proof.
  intros H. unfold since. rewrite H, skipn_app, skipn_all, Nat.sub_diag.
  reflexivity.
Qed.

Lemma existsb_In_emit (f : effect -> bool) (e : event) (l : list effect) :
  f (Emit e) = true -> In (Emit e) l -> existsb f l = true.
Proof.
  intros Hf Hin. apply existsb_exists. exists (Emit e). split; assumption.
Qed.

(** The wait returns [True] exactly when the event is set on return; the
    transport has evolved by emissions only; and a wait that times out has
    seen the whole schedule emitted. *)
Lemma wait_spec (E : env) (id : nat) (schedule : list event) :
  forall t,
  exists l,
    evolves t (snd (wait E id schedule t)) l
    /\ fst (wait E id schedule t) = event_set id (snd (wait E id schedule t))
    /\ (fst (wait E id schedule t) = false ->
        forall e, In e schedule -> In (Emit e) l).
Proof.
  induction schedule as [ | e later IH ]; intros t; cbn [wait];
    destruct (event_set id t) eqn:Hset; cbn [fst snd].
  - exists []. split; [ apply evolves_refl | split; [ auto | discriminate ] ].
  - exists []. split; [ apply evolves_refl | split; [ auto | intros _ e [] ] ].
  - exists []. split; [ apply evolves_refl | split; [ auto | discriminate ] ].
  - destruct (emit_evolves E e t) as [l1 [E1 _]].
    destruct (IH (snd (emit E e t))) as [l2 [E2 [Hfst Hall]]].
    exists ((Emit e :: l1) ++ l2). split; [ | split ].
    + eapply evolves_trans; eassumption.
    + exact Hfst.
    + intros Hf e' [-> | Hin].
      * left. reflexivity.
      * apply in_or_app. right. apply Hall; assumption.
Qed.

(** Where [pause] stands when it starts to wait: [ready_state] is
    [pausing] and a fresh context is the last one. *)
Lemma pause_begin_busy (t : transport) :
  polling t = true \/ writable t = false ->
  pause_begin false t
  = (Ret (List.length (pauses t)),
     set_pauses
       (pauses t
        ++ [mkContext ((if polling t then 1 else 0)
                       + (if writable t then 0 else 1))
              (Some false) (polling t) (negb (writable t))])
       (set_ready_state (Some Pausing) t)).
Proof.
  intros H. unfold pause_begin.
  cbn [set_ready_state polling writable pauses total ev on_poll_complete on_drain].
  destruct (polling t), (writable t); cbn; try reflexivity.
  destruct H; discriminate.
Qed.

Lemma nth_error_last {A : Type} (l : list A) (a : A) :
  nth_error (l ++ [a]) (List.length l) = Some a.
Proof. rewrite nth_error_app2, Nat.sub_diag by lia. reflexivity. Qed.

Lemma event_set_evolves (t t' : transport) (l : list effect) (id : nat)
  (c : pause_context) :
  evolves t t' l -> nth_error (pauses t) id = Some c ->
  nth_error (pauses t') id
  = Some (advance (existsb is_emit_poll_complete l) (existsb is_emit_drain l) c).
Proof.
  intros Ev Hc. rewrite (ev_pauses _ _ _ Ev), nth_error_map, Hc. reflexivity.
Qed.

(** C4: with a poll in flight and a write pending, a blocking [pause]
    that returns has seen both a [poll_complete] and a [drain] emitted since
    the call, and returns with [ready_state = 'paused']; and when the other
    tasks emit both events before the timeout, [pause] does return, without
    error, in state [paused]. *)
Theorem pause_waits_for_both (E : env) (timeout : Z) (schedule : list event)
  (t : transport) :
  polling t = true -> writable t = false ->
  let r := PollingTransport_pause E false timeout schedule t in
  (fst r = Ret tt ->
   existsb is_emit_poll_complete (since t (snd r)) = true
   /\ existsb is_emit_drain (since t (snd r)) = true
   /\ ready_state (snd r) = Some Paused)
  /\ (In EvPollComplete schedule -> In EvDrain schedule ->
      fst r = Ret tt /\ ready_state (snd r) = Some Paused).
Proof.
  intros Hp Hw r. subst r.
  unfold PollingTransport_pause, bind.
  rewrite pause_begin_busy by (left; exact Hp).
  rewrite Hp, Hw. cbn [negb Z.add Pos.add].
  set (c0 := mkContext 2 (Some false) true true).
  set (t2 := set_pauses (pauses t ++ [c0]) (set_ready_state (Some Pausing) t)).
  set (id := List.length (pauses t)).
  destruct (wait_spec E id schedule t2) as [l [Ev [Hfst Hall]]].
  destruct (wait E id schedule t2) as [paused t3]. cbn [fst snd] in *.
  assert (Hc0 : nth_error (pauses t2) id = Some c0) by apply nth_error_last.
  pose proof (event_set_evolves t2 t3 l id c0 Ev Hc0) as Hc3.
  assert (Hlog : since t t3 = l).
  { apply since_app. rewrite (ev_log _ _ _ Ev). reflexivity. }
  assert (Hboth : paused = true ->
                  existsb is_emit_poll_complete l = true
                  /\ existsb is_emit_drain l = true
                  /\ ready_state t3 = Some Paused).
  { intros ->. symmetry in Hfst. unfold event_set in Hfst. rewrite Hc3 in Hfst.
    assert (Hev : ev (advance (existsb is_emit_poll_complete l)
                        (existsb is_emit_drain l) c0) = Some true).
    { destruct (ev _) as [[ | ] | ]; [ reflexivity | discriminate | discriminate ]. }
    split; [ | split ].
    - destruct (existsb is_emit_poll_complete l); [ reflexivity | ].
      destruct (existsb is_emit_drain l); discriminate Hev.
    - destruct (existsb is_emit_drain l); [ reflexivity | ].
      destruct (existsb is_emit_poll_complete l); discriminate Hev.
    - exact (ev_paused _ _ _ Ev id c0 _ Hc0 Hc3 eq_refl Hev). }
  assert (Hmust : In EvPollComplete schedule -> In EvDrain schedule ->
                  paused = true).
  { intros Hpc Hdr. destruct paused; [ reflexivity | exfalso ].
    specialize (Hall eq_refl).
    rewrite (existsb_In_emit is_emit_poll_complete EvPollComplete l eq_refl
               (Hall _ Hpc)) in Hc3.
    rewrite (existsb_In_emit is_emit_drain EvDrain l eq_refl
               (Hall _ Hdr)) in Hc3.
    symmetry in Hfst. unfold event_set in Hfst. rewrite Hc3 in Hfst.
    discriminate Hfst. }
  destruct paused; cbn [fst snd]; rewrite Hlog.
  - destruct (Hboth eq_refl) as [H1 [H2 H3]]. repeat split; assumption.
  - split; [ discriminate | ].
    intros Hpc Hdr. discriminate (Hmust Hpc Hdr).
Qed.

Lemma pause_waits_for_both_witness :
  (fst (PollingTransport_pause (test_env 200 []) false 30
          [EvPoll; EvPollComplete; EvDrain] busy_transport) = Ret tt
   /\ ready_state
        (snd (PollingTransport_pause (test_env 200 []) false 30
                [EvPoll; EvPollComplete; EvDrain] busy_transport))
      = Some Paused)
  /\ existsb is_emit_poll_complete
       (since busy_transport
          (snd (PollingTransport_pause (test_env 200 []) false 30
                  [EvPoll; EvPollComplete; EvDrain] busy_transport))) = true.
Proof.
  split.
  - apply (proj2 (pause_waits_for_both (test_env 200 []) 30
                    [EvPoll; EvPollComplete; EvDrain] busy_transport
                    eq_refl eq_refl)); simpl; tauto.
  - apply (proj1 (pause_waits_for_both (test_env 200 []) 30
                    [EvPoll; EvPollComplete; EvDrain] busy_transport
                    eq_refl eq_refl)). reflexivity.
Defined.

(** C5: when a poll or a write is outstanding and neither a
    [poll_complete] nor a [drain] is emitted after the call, a blocking
    [pause] raises [RuntimeWarning("The pause timeout")] once the timeout
    has elapsed, and [ready_state] is left at [pausing]. *)
Theorem pause_times_out (E : env) (timeout : Z) (schedule : list event)
  (t : transport) :
  polling t = true \/ writable t = false ->
  let r := PollingTransport_pause E false timeout schedule t in
  existsb is_emit_poll_complete (since t (snd r)) = false ->
  existsb is_emit_drain (since t (snd r)) = false ->
  fst r = Raise (RuntimeWarning "The pause timeout")
  /\ ready_state (snd r) = Some Pausing.
Proof.
  intros Hbusy r. subst r.
  unfold PollingTransport_pause, bind.
  rewrite pause_begin_busy by exact Hbusy. cbn [negb].
  set (c0 := mkContext _ (Some false) _ _).
  set (t2 := set_pauses (pauses t ++ [c0]) (set_ready_state (Some Pausing) t)).
  set (id := List.length (pauses t)).
  destruct (wait_spec E id schedule t2) as [l [Ev [Hfst _]]].
  destruct (wait E id schedule t2) as [paused t3]. cbn [fst snd] in *.
  assert (Hlog : since t t3 = l).
  { apply since_app. rewrite (ev_log _ _ _ Ev). reflexivity. }
  assert (Hc0 : nth_error (pauses t2) id = Some c0) by apply nth_error_last.
  pose proof (event_set_evolves t2 t3 l id c0 Ev Hc0) as Hc3.
  destruct paused; cbn [fst snd]; rewrite Hlog; intros Hpc Hdr.
  - exfalso. rewrite Hpc, Hdr, advance_none in Hc3.
    unfold event_set in Hfst. rewrite Hc3 in Hfst. discriminate Hfst.
  - split; [ reflexivity | ].
    rewrite (ev_quiet _ _ _ Ev Hpc Hdr). reflexivity.
Qed.

Lemma pause_times_out_witness :
  fst (PollingTransport_pause (test_env 200 []) false 1
         [EvPoll; EvError "xhr request failed" "oops"] busy_transport)
  = Raise (RuntimeWarning "The pause timeout")
  /\ ready_state
       (snd (PollingTransport_pause (test_env 200 []) false 1
               [EvPoll; EvError "xhr request failed" "oops"] busy_transport))
     = Some Pausing.
Proof.
  apply (pause_times_out (test_env 200 []) 1
           [EvPoll; EvError "xhr request failed" "oops"] busy_transport);
    [ left; reflexivity | reflexivity | reflexivity ].
Defined.

End Pause.

(** * [PollingTransport.on_data] *)

Section OnData.

Import Transports.

Lemma silent_facts (l : list effect) :
  silent l ->
  dispatched l = []
  /\ existsb is_emit_poll_complete l = false
  /\ existsb is_emit_close l = false.
Proof.
  unfold silent. induction l as [ | x r IH ]; [ auto | ].
  cbn [forallb]. intros H. apply andb_true_iff in H as [Hx Hr].
  destruct (IH Hr) as [H1 [H2 H3]].
  destruct x as [ [ | | | | | p | m d ] | | ]; try discriminate Hx;
    cbn [dispatched existsb is_emit_poll_complete is_emit_close orb]; auto.
Qed.

Lemma evolves_carries (t t' : transport) (l : list effect) :
  evolves t t' l -> carries t t' l.
Proof. intros [L C S P _ _ _ _]. constructor; assumption. Qed.

Lemma carries_refl (t : transport) : carries t t [].
Proof. constructor; try reflexivity. rewrite app_nil_r. reflexivity. Qed.

Lemma carries_trans (t t' t'' : transport) (l1 l2 : list effect) :
  carries t t' l1 -> carries t' t'' l2 -> carries t t'' (l1 ++ l2).
Proof.
  intros [L1 C1 S1 P1] [L2 C2 S2 P2]. constructor; try congruence.
  rewrite L2, L1, app_assoc. reflexivity.
Qed.

Lemma step_effects_app (p1 p2 : list packet) (m : bool) (l1 l2 : list effect) :
  step_effects p1 m l1 -> step_effects p2 m l2 ->
  step_effects (p1 ++ p2) m (l1 ++ l2).
Proof.
  intros [D1 [P1 C1]] [D2 [P2 C2]]. split; [ | split ].
  - rewrite dispatched_app, D1, D2. reflexivity.
  - rewrite existsb_app, P1, P2. reflexivity.
  - intros Hm. rewrite existsb_app, (C1 Hm), (C2 Hm). reflexivity.
Qed.

Lemma step_effects_silent (m : bool) (l : list effect) :
  silent l -> step_effects [] m l.
Proof.
  intros H. destruct (silent_facts l H) as [H1 [H2 H3]].
  split; [ | split ]; auto.
Qed.

Lemma emit_carries (E : env) (e : event) (m : bool) (t : transport) :
  e <> EvPollComplete -> (m = false -> e <> EvClose) ->
  exists l,
    carries t (snd (emit E e t)) l
    /\ step_effects (dispatched [Emit e]) m l.
Proof.
  intros Hpc Hcl. destruct (emit_evolves E e t) as [l [Ev Hs]].
  exists ([Emit e] ++ l). split; [ apply evolves_carries; exact Ev | ].
  rewrite <- (app_nil_r (dispatched [Emit e])).
  apply step_effects_app; [ | apply step_effects_silent; exact Hs ].
  split; [ reflexivity | split ].
  - destruct e; try reflexivity. exfalso. apply Hpc. reflexivity.
  - intros Hm. destruct e; try reflexivity. exfalso. apply (Hcl Hm). reflexivity.
Qed.

Lemma on_open_carries (E : env) (m : bool) (t : transport) :
  exists l,
    carries t (snd (on_open E t)) l /\ step_effects [] m l.
Proof.
  unfold on_open, bind, modify.
  destruct (emit_carries E EvOpen m
              (set_writable true (set_ready_state (Some Open) t)))
    as [l [[L C S P] H]]; try discriminate.
  exists l. split; [ constructor; assumption | exact H ].
Qed.

Lemma on_packet_carries (E : env) (p : packet) (m : bool) (t : transport) :
  exists l,
    carries t (snd (on_packet E p t)) l /\ step_effects [p] m l.
Proof. unfold on_packet. apply emit_carries; discriminate. Qed.

Lemma on_close_carries (E : env) (t : transport) :
  exists l,
    carries t (snd (on_close E t)) l
    /\ step_effects [] (negb (polling_kind (cls t))) l.
Proof.
  unfold on_close, bind, get.
  destruct (polling_kind (cls t)); cbn [negb].
  - unfold PollingTransport_on_close, bind, get.
    destruct (is_state Open (ready_state t)).
    + destruct (respects_write E [close_packet] t) as [l [Ev Hs]].
      exists l. split; [ apply evolves_carries; exact Ev | ].
      apply step_effects_silent. exact Hs.
    + exists []. split; [ | apply step_effects_silent; reflexivity ].
      unfold modify. cbn [snd]. constructor; try reflexivity.
      cbn. rewrite app_nil_r. reflexivity.
  - unfold Transport_on_close, bind, modify.
    destruct (emit_carries E EvClose true (set_ready_state (Some Closed) t))
      as [l [[L C S P] H]]; try discriminate.
    exists l. split; [ constructor; assumption | exact H ].
Qed.

Lemma step_effects_weaken (ps : list packet) (m : bool) (l : list effect) :
  step_effects ps false l -> step_effects ps m l.
Proof. intros [D [P C]]. split; [ | split ]; auto. Qed.

(** The loop of [on_data]: the packets dispatched are, in order, the
    packets of the payload before its first [close] packet, all of them when
    the loop ends or halts, a prefix of them when it is cut short by an
    exception; the loop emits no [poll_complete], and on a polling
    transport no [close]. *)
Lemma on_data_loop_spec (E : env) (ps : list packet) :
  forall t,
  exists l,
    carries t (snd (PollingTransport_on_data_loop E ps t)) l
    /\ existsb is_emit_poll_complete l = false
    /\ (polling_kind (cls t) = true -> existsb is_emit_close l = false)
    /\ (exists rest, before_close ps = dispatched l ++ rest)
    /\ (fst (PollingTransport_on_data_loop E ps t) = Ret true ->
        dispatched l = ps /\ existsb is_close ps = false)
    /\ (fst (PollingTransport_on_data_loop E ps t) = Ret false ->
        dispatched l = before_close ps /\ existsb is_close ps = true).
Proof.
  induction ps as [ | p r IH ]; intros t.
  - exists []. cbn. repeat split; try discriminate; auto using carries_refl.
    + apply carries_refl.
    + exists []. reflexivity.
  - remember (PollingTransport_on_data_loop E (p :: r) t) as R eqn:HR.
    cbn [PollingTransport_on_data_loop] in HR.
    unfold bind at 1 in HR. unfold get at 1 in HR. cbv beta iota in HR.
    unfold bind at 1 in HR.
    cbn [before_close existsb]. fold (is_close p) in HR |- *.
    assert (HA : exists lA,
               carries t
                 (snd ((if is_state Opening (ready_state t)
                        then on_open E else ret tt) t)) lA
               /\ step_effects [] false lA).
    { destruct (is_state Opening (ready_state t)).
      - apply on_open_carries.
      - exists []. split; [ apply carries_refl | ]. split; auto. }
    destruct HA as [lA [CA [DA [PA KA]]]]. specialize (KA eq_refl).
    destruct ((if is_state Opening (ready_state t) then on_open E else ret tt) t)
      as [[[] | e] tA]; cbn [fst snd] in *.
    + destruct (is_close p) eqn:Hp; cbn [orb].
      * destruct (on_close_carries E tA) as [lC [CC [DC [PC KC]]]].
        exists (lA ++ lC). unfold bind in HR.
        destruct (on_close E tA) as [[[] | e] tC]; cbn [fst snd ret] in *;
          subst R; cbn [fst snd];
          (split; [ eapply carries_trans; eassumption | ]);
          (split; [ rewrite existsb_app, PA, PC; reflexivity | ]);
          (split; [ intros Hk; rewrite existsb_app, KA, KC;
                    [ reflexivity
                    | rewrite (ca_cls _ _ _ CA), Hk; reflexivity ] | ]);
          rewrite dispatched_app, DA, DC;
          (split; [ exists []; reflexivity | ]);
          split; intros H; try discriminate H; split; reflexivity.
      * destruct (on_packet_carries E p false tA) as [lP [CP [DP [PP KP]]]].
        specialize (KP eq_refl). unfold bind at 1 in HR.
        destruct (on_packet E p tA) as [[[] | e] tP]; cbn [fst snd] in *.
        -- destruct (IH tP) as [lR [CR [PR [KR [[rest DR] [HT HF]]]]]].
           exists (lA ++ lP ++ lR). subst R.
           split; [ eapply carries_trans; [ eassumption | ];
                    eapply carries_trans; eassumption | ].
           split; [ rewrite !existsb_app, PA, PP, PR; reflexivity | ].
           split; [ intros Hk; rewrite !existsb_app, KA, KP, KR;
                    [ reflexivity
                    | rewrite (ca_cls _ _ _ CP), (ca_cls _ _ _ CA); exact Hk ] | ].
           rewrite !dispatched_app, DA, DP. cbn [app].
           split; [ exists rest; rewrite DR; reflexivity | ].
           split; intros H.
           ++ destruct (HT H) as [H1 H2]. rewrite H1, H2. split; reflexivity.
           ++ destruct (HF H) as [H1 H2]. rewrite H1, H2. split; reflexivity.
        -- exists (lA ++ lP). subst R. cbn [fst snd].
           split; [ eapply carries_trans; eassumption | ].
           split; [ rewrite !existsb_app, PA, PP; reflexivity | ].
           split; [ intros Hk; rewrite !existsb_app, KA, KP; reflexivity | ].
           rewrite !dispatched_app, DA, DP. cbn [app].
           split; [ exists (before_close r); reflexivity | ].
           split; intros H; discriminate H.
    + exists lA. subst R. cbn [fst snd].
      split; [ exact CA | ].
      split; [ exact PA | ].
      split; [ intros _; exact KA | ].
      rewrite DA.
      split; [ eexists; reflexivity | ].
      split; intros H; discriminate H.
Qed.

(** C9: when the loop of [on_data] has run through the whole payload,
    which then holds no [close] packet, and leaves the transport [open] with
    [sid] still unset, [on_data] raises [ValueError]: the polling flag is as
    it was before the payload, and no [poll_complete] has been emitted. *)
Theorem on_data_sid_unset (E : env) (data : wire) (t : transport) :
  let r := PollingTransport_on_data_loop E (decode_payload E data) t in
  fst r = Ret true ->
  ready_state (snd r) = Some Open ->
  sid (snd r) = None ->
  PollingTransport_on_data E data t
  = (Raise (ValueError
       "sid is none after on_open, forgot setting sid in engine_socket?"),
     snd r)
  /\ existsb is_close (decode_payload E data) = false
  /\ polling (snd r) = polling t
  /\ existsb is_emit_poll_complete (since t (snd r)) = false.
Proof.
  intros r Hret Hopen Hsid.
  destruct (on_data_loop_spec E (decode_payload E data) t)
    as [l [C [P [_ [_ [HT _]]]]]].
  fold r in C, HT. destruct (HT Hret) as [_ Hnc].
  split; [ | split; [ exact Hnc | split ] ].
  - unfold PollingTransport_on_data, bind. fold r.
    destruct r as [res t']. cbn [fst snd] in *. subst res.
    cbn [negb]. unfold get. cbv beta iota. rewrite Hopen, Hsid. reflexivity.
  - exact (ca_polling _ _ _ C).
  - rewrite (since_app _ _ _ (ca_log _ _ _ C)). exact P.
Qed.

Lemma on_data_sid_unset_witness :
  PollingTransport_on_data (test_env 200 [message "a"]) (Str "1:4a")
    open_xhr_no_sid
  = (Raise (ValueError
       "sid is none after on_open, forgot setting sid in engine_socket?"),
     snd (PollingTransport_on_data_loop (test_env 200 [message "a"])
            [message "a"] open_xhr_no_sid))
  /\ polling (snd (PollingTransport_on_data_loop (test_env 200 [message "a"])
                     [message "a"] open_xhr_no_sid))
     = polling open_xhr_no_sid.
Proof.
  destruct (on_data_sid_unset (test_env 200 [message "a"]) (Str "1:4a")
              open_xhr_no_sid eq_refl eq_refl eq_refl) as [H1 [_ [H2 _]]].
  split; [ exact H1 | exact H2 ].
Defined.

Lemma unclosed_trans (t t' t'' : transport) :
  unclosed t t' -> unclosed t' t'' -> unclosed t t''.
Proof. unfold unclosed. auto. Qed.

Lemma evolves_unclosed (t t' : transport) (l : list effect) :
  evolves t t' l -> unclosed t t'.
Proof.
  intros Ev H. destruct (ev_state _ _ _ Ev) as [R | R]; congruence.
Qed.

Lemma emit_unclosed (E : env) (e : event) (t : transport) :
  unclosed t (snd (emit E e t)).
Proof.
  destruct (emit_evolves E e t) as [l [Ev _]].
  exact (evolves_unclosed _ _ _ Ev).
Qed.

Lemma on_open_unclosed (E : env) (t : transport) :
  unclosed t (snd (on_open E t)).
Proof.
  unfold on_open, bind, modify. intros H.
  apply (emit_unclosed E EvOpen) in H. discriminate H.
Qed.

Lemma PollingTransport_on_close_unclosed (E : env) (t : transport) :
  unclosed t (snd (PollingTransport_on_close E t)).
Proof.
  unfold PollingTransport_on_close, bind, get.
  destruct (is_state Open (ready_state t)).
  - destruct (respects_write E [close_packet] t) as [l [Ev _]].
    exact (evolves_unclosed _ _ _ Ev).
  - intros H. exact H.
Qed.

(** On a polling transport the loop of [on_data] never writes
    [ready_state = 'closed']. *)
Lemma on_data_loop_unclosed (E : env) (ps : list packet) :
  forall t, polling_kind (cls t) = true ->
            unclosed t (snd (PollingTransport_on_data_loop E ps t)).
Proof.
  induction ps as [ | p r IH ]; intros t Hk; [ intros H; exact H | ].
  remember (PollingTransport_on_data_loop E (p :: r) t) as R eqn:HR.
  cbn [PollingTransport_on_data_loop] in HR.
  unfold bind at 1 in HR. unfold get at 1 in HR. cbv beta iota in HR.
  unfold bind at 1 in HR.
  assert (HA : unclosed t (snd ((if is_state Opening (ready_state t)
                                 then on_open E else ret tt) t))
               /\ cls (snd ((if is_state Opening (ready_state t)
                             then on_open E else ret tt) t)) = cls t).
  { destruct (is_state Opening (ready_state t)).
    - split; [ apply on_open_unclosed | ].
      destruct (on_open_carries E false t) as [l [C _]]. exact (ca_cls _ _ _ C).
    - split; [ intros H; exact H | reflexivity ]. }
  destruct HA as [UA CA].
  destruct ((if is_state Opening (ready_state t) then on_open E else ret tt) t)
    as [[[] | e] tA]; cbn [fst snd] in *; [ | subst R; exact UA ].
  destruct (String.eqb "close" (ptype p)).
  - unfold on_close in HR. unfold bind, get in HR. cbv beta iota in HR.
    rewrite CA, Hk in HR.
    pose proof (PollingTransport_on_close_unclosed E tA) as UC.
    destruct (PollingTransport_on_close E tA) as [[[] | e] tC];
      cbn [fst snd ret] in *; subst R; cbn [snd];
      eapply unclosed_trans; eassumption.
  - unfold bind at 1 in HR.
    pose proof (emit_unclosed E (EvPacket p) tA) as UP.
    destruct (on_packet_carries E p false tA) as [lP [CP _]].
    unfold on_packet in *.
    destruct (emit E (EvPacket p) tA) as [[[] | e] tP]; cbn [fst snd] in *;
      subst R.
    + eapply unclosed_trans; [ exact UA | ].
      eapply unclosed_trans; [ exact UP | ].
      apply IH. rewrite (ca_cls _ _ _ CP), CA. exact Hk.
    + cbn [snd]. eapply unclosed_trans; eassumption.
Qed.

(** What holds of [on_data] on every payload: the packets dispatched are
    an initial part of those before the first [close] packet, so none that
    follows a [close] packet is dispatched; and on a polling transport no
    [close] event is emitted and [ready_state] is never set to [closed]. *)
Lemma on_data_never_closes (E : env) (data : wire) (t : transport) :
  let r := PollingTransport_on_data E data t in
  (exists rest,
     before_close (decode_payload E data)
     = dispatched (since t (snd r)) ++ rest)
  /\ (polling_kind (cls t) = true ->
      existsb is_emit_close (since t (snd r)) = false
      /\ unclosed t (snd r)).
Proof.
  intros r. subst r. unfold PollingTransport_on_data, bind.
  destruct (on_data_loop_spec E (decode_payload E data) t)
    as [l [C [_ [K [[rest D] _]]]]].
  pose proof (on_data_loop_unclosed E (decode_payload E data) t) as U.
  destruct (PollingTransport_on_data_loop E (decode_payload E data) t)
    as [[completed | e] t1]; cbn [fst snd] in *.
  2: { cbn [snd raise ret]. rewrite (since_app _ _ _ (ca_log _ _ _ C)).
       split; [ exists rest; exact D | ]. intros Hk. split; auto. }
  destruct completed; cbn [negb ret snd].
  2: { cbn [snd raise ret]. rewrite (since_app _ _ _ (ca_log _ _ _ C)).
       split; [ exists rest; exact D | ]. intros Hk. split; auto. }
  unfold get. cbv beta iota.
  destruct (is_state Open (ready_state t1) && _); cbn [raise snd].
  { cbn [snd raise ret]. rewrite (since_app _ _ _ (ca_log _ _ _ C)).
    split; [ exists rest; exact D | ]. intros Hk. split; auto. }
  destruct (negb (is_state Closed (ready_state t1))); cbn [snd].
  2: { cbn [snd raise ret]. rewrite (since_app _ _ _ (ca_log _ _ _ C)).
       split; [ exists rest; exact D | ]. intros Hk. split; auto. }
  unfold modify. cbv beta iota.
  destruct (emit_evolves E EvPollComplete (set_polling false t1))
    as [l1 [Ev Hs]].
  destruct (silent_facts l1 Hs) as [D1 [_ K1]].
  assert (Hlog : log (snd (emit E EvPollComplete (set_polling false t1)))
                 = log t ++ (l ++ Emit EvPollComplete :: l1)).
  { rewrite (ev_log _ _ _ Ev). cbn [set_polling log].
    rewrite (ca_log _ _ _ C), app_assoc. reflexivity. }
  destruct (emit E EvPollComplete (set_polling false t1)) as [[[] | e] t2];
    cbn [snd] in Ev, Hlog;
    [ unfold get; cbv beta iota;
      destruct (is_state Open (ready_state t2)) | ];
    cbn [snd ret]; rewrite (since_app _ _ _ Hlog).
  all: split;
    [ exists rest; rewrite dispatched_app; cbn [dispatched];
      rewrite D1, app_nil_r; exact D
    | intros Hk; split;
      [ rewrite existsb_app, (K Hk); cbn [existsb is_emit_close orb]; exact K1
      | eapply unclosed_trans; [ exact (U Hk) | ];
        intros H; exact (evolves_unclosed _ _ _ Ev H) ] ].
Qed.

(** C2, on the code, at the payload [[message a, close, message b]]
    received by an open polling transport: [a] is dispatched and [b] is not,
    and [on_data] returns [False]; but the [close] packet runs
    [PollingTransport.on_close], which posts a close packet and emits
    [drain]: [ready_state] stays [open] and no [close] event is emitted. *)
Theorem on_data_close_packet_leaves_open :
  fst (PollingTransport_on_data (test_env 200 payload_with_close)
         (Str "payload") open_xhr) = Ret (Some false)
  /\ dispatched (log (snd (PollingTransport_on_data
                             (test_env 200 payload_with_close)
                             (Str "payload") open_xhr)))
     = [message "a"]
  /\ ready_state (snd (PollingTransport_on_data
                         (test_env 200 payload_with_close)
                         (Str "payload") open_xhr))
     = Some Open
  /\ log (snd (PollingTransport_on_data (test_env 200 payload_with_close)
                 (Str "payload") open_xhr))
     = [Emit (EvPacket (message "a"));
        Request POST "http://localhost:8080/engine.io?EIO=3&sid=s"
          (Some (Str "1:1")) (Some "text/plain;charset=UTF-8");
        Emit EvDrain].
Proof. repeat split. Qed.

End OnData.

(** * Further properties of the transports *)

Section Lifecycle.

Import Transports.

(** [open()] in any state but [closed] and unset does nothing, for every
    class and however long the poll loop could run. *)
Theorem open_noop (E : env) (fuel : nat) (t : transport) (s : state) :
  ready_state t = Some s -> s <> Closed ->
  open E fuel t = Some (Ret tt, t).
Proof.
  intros H Hs. unfold open. rewrite H.
  destruct s; try reflexivity. exfalso. apply Hs. reflexivity.
Qed.

Lemma open_noop_witness :
  open (test_env 200 []) 3 busy_transport = Some (Ret tt, busy_transport).
Proof.
  apply (open_noop (test_env 200 []) 3 busy_transport Open);
    [ reflexivity | discriminate ].
Defined.

Lemma close_noop_witness :
  close (test_env 200 []) fresh_xhr = (Ret tt, fresh_xhr).
Proof.
  apply (close_noop (test_env 200 []) fresh_xhr); simpl; discriminate.
Defined.

Lemma PollingTransport_port_spec_witness :
  PollingTransport_port
    (init XHRPollingTransport "/engine.io" "localhost" (Some 443) true false)
  = ""
  /\ PollingTransport_port fresh_xhr = ":8080".
Proof.
  split.
  - apply (proj1 (PollingTransport_port_spec
                    (init XHRPollingTransport "/engine.io" "localhost"
                       (Some 443) true false))).
    reflexivity.
  - apply (proj2 (PollingTransport_port_spec fresh_xhr)).
    simpl. discriminate.
Defined.

Lemma WebsocketTransport_port_ws_witness :
  WebsocketTransport_port open_websocket = ":8080".
Proof.
  apply (proj2 (WebsocketTransport_port_ws open_websocket 8080
                  eq_refl eq_refl ltac:(discriminate))).
  discriminate.
Defined.

Lemma on_data_never_closes_witness :
  existsb is_emit_close
    (since open_xhr
       (snd (PollingTransport_on_data (test_env 200 payload_with_close)
               (Str "payload") open_xhr))) = false.
Proof.
  apply (proj2 (on_data_never_closes (test_env 200 payload_with_close)
                  (Str "payload") open_xhr)).
  reflexivity.
Defined.

End Lifecycle.

(** * Writing *)

Section Writing.

Import Transports.

Lemma fire_frame (h : hook) (t : transport) :
  log (fire h t) = log t
  /\ writable (fire h t) = writable t
  /\ polling (fire h t) = polling t
  /\ deferred_close (fire h t) = deferred_close t
  /\ websocket (fire h t) = websocket t
  /\ supports_binary (fire h t) = supports_binary t
  /\ cls (fire h t) = cls t
  /\ sid (fire h t) = sid t.
Proof.
  unfold fire.
  destruct (existsb snd (map (fire_context h) (pauses t)));
    repeat split; reflexivity.
Qed.

Lemma fire_ready_state (h : hook) (t : transport) :
  ready_state (fire h t)
  = if existsb snd (map (fire_context h) (pauses t)) then Some Paused
    else ready_state t.
Proof.
  unfold fire.
  destruct (existsb snd (map (fire_context h) (pauses t))); reflexivity.
Qed.

(** When the HTTP client answers the POST, the write of a payload over
    HTTP returns: it POSTs the encoded payload once, with the content type
    of its encoding, emits [error] when the answer is not 2xx, then emits
    [drain] and leaves the transport writable. *)
Theorem xhr_write_drains (E : env) (packets : list packet) (t : transport) :
  cls t = XHRPollingTransport ->
  let data := encode_payload E packets (supports_binary t) in
  let uri := PollingTransport_uri E t in
  let answer :=
    http E (log t) POST uri (Some data) (Some (post_content_type data)) in
  fst (write E packets t) = Ret tt
  /\ writable (snd (write E packets t)) = true
  /\ since t (snd (write E packets t))
     = Request POST uri (Some data) (Some (post_content_type data))
       :: (if is_2xx answer then []
           else [Emit (EvError "xhr request failed" (content answer))])
       ++ [Emit EvDrain].
Proof.
  intros Hcls data uri answer.
  cbv [write bind get]. rewrite Hcls.
  cbv [PollingTransport_write do_write bind modify get].
  cbn [set_writable cls]. rewrite Hcls.
  cbv [XHRPollingTransport_do_write bind request].
  cbn [set_writable supports_binary log].
  change (PollingTransport_uri E (set_writable false t)) with uri.
  fold data.
  assert (Hct : Some match data with
                     | Bytearray _ => "application/octet-stream"
                     | Str _ => "text/plain;charset=UTF-8"
                     end = Some (post_content_type data))
    by (destruct data; reflexivity).
  rewrite Hct. fold answer.
  destruct (is_2xx answer); cbv [ret on_error modify emit_plain];
    cbn [fst snd];
    (split; [ reflexivity | split ]);
    [ rewrite (proj1 (proj2 (fire_frame _ _))); reflexivity
    | apply since_app; rewrite (proj1 (fire_frame _ _));
      cbn [record log set_writable]; rewrite <- ?app_assoc; reflexivity
    | rewrite (proj1 (proj2 (fire_frame _ _))); reflexivity
    | apply since_app; rewrite (proj1 (fire_frame _ _));
      cbn [record log set_writable]; rewrite <- ?app_assoc; reflexivity ].
Qed.

Lemma xhr_write_drains_witness :
  fst (write failing_env [message "a"] open_xhr) = Ret tt
  /\ writable (snd (write failing_env [message "a"] open_xhr)) = true.
Proof.
  destruct (xhr_write_drains failing_env [message "a"] open_xhr eq_refl)
    as [H1 [H2 _]].
  split; [ exact H1 | exact H2 ].
Defined.

(** On the abstract polling transport the write stops in [do_write] with
    [NotImplementedError]: nothing is sent, no [drain] is emitted, and the
    transport is left not writable. *)
Theorem abstract_write_raises (E : env) (packets : list packet)
  (t : transport) :
  cls t = PollingTransport ->
  write E packets t = (Raise NotImplementedError, set_writable false t).
Proof.
  intros Hcls. cbv [write bind get]. rewrite Hcls.
  cbv [PollingTransport_write do_write bind modify get].
  cbn [set_writable cls]. rewrite Hcls. reflexivity.
Qed.

Lemma abstract_write_raises_witness :
  write (test_env 200 []) [message "a"]
    (test_transport PollingTransport (Some Open) (Some "s"))
  = (Raise NotImplementedError,
     set_writable false (test_transport PollingTransport (Some Open) (Some "s"))).
Proof.
  apply (abstract_write_raises (test_env 200 []) [message "a"]
           (test_transport PollingTransport (Some Open) (Some "s"))).
  reflexivity.
Defined.

End Writing.

(** * The websocket transport *)

Section Websocket.

Import Transports.

Lemma record_all_frame (l : list effect) :
  forall t,
    log (record_all l t) = log t ++ l
    /\ ready_state (record_all l t) = ready_state t
    /\ writable (record_all l t) = writable t
    /\ polling (record_all l t) = polling t
    /\ websocket (record_all l t) = websocket t
    /\ supports_binary (record_all l t) = supports_binary t
    /\ sid (record_all l t) = sid t
    /\ cls (record_all l t) = cls t
    /\ pauses (record_all l t) = pauses t
    /\ deferred_close (record_all l t) = deferred_close t.
Proof.
  induction l as [ | x r IH ]; intros t; cbn [record_all fold_left].
  - rewrite app_nil_r. repeat split; reflexivity.
  - fold (record_all r (record x t)).
    destruct (IH (record x t)) as [H1 [H2 [H3 [H4 [H5 [H6 [H7 [H8 [H9 H10]]]]]]]]].
    rewrite H1, H2, H3, H4, H5, H6, H7, H8, H9, H10.
    cbn [record log]. rewrite <- app_assoc. repeat split; reflexivity.
Qed.

Lemma send_each_spec (E : env) (ps : list packet) :
  forall t,
    websocket t = true ->
    exists l,
      WebsocketTransport_send_each E ps t = (Ret tt, record_all l t)
      /\ Forall2 (frame_or_error E (supports_binary t)) ps l.
Proof.
  induction ps as [ | p r IH ]; intros t Hws.
  - exists []. split; [ reflexivity | constructor ].
  - cbn [WebsocketTransport_send_each]. cbv [bind get]. rewrite Hws.
    destruct (ws_send E (log t) (encode_packet E p (supports_binary t)) _)
      as [e | ] eqn:Hsend.
    + cbv [on_error modify emit_plain].
      destruct (IH (record (Emit (EvError
                  "The websocket clsoed without a close packet (%s)" e)) t) Hws)
        as [l [Hl Fl]].
      exists (Emit (EvError
                "The websocket clsoed without a close packet (%s)" e) :: l).
      split; [ exact Hl | ].
      constructor; [ right; exists e; reflexivity | exact Fl ].
    + cbv [modify].
      destruct (IH (record (WsSend (encode_packet E p (supports_binary t))
                              match encode_packet E p (supports_binary t) with
                              | Bytearray _ => true
                              | Str _ => false
                              end) t) Hws)
        as [l [Hl Fl]].
      eexists (_ :: l).
      split; [ exact Hl | ].
      constructor; [ left; reflexivity | exact Fl ].
Qed.

Lemma send_each_trace (E : env) (ps : list packet) :
  forall t,
    websocket t = true ->
    WebsocketTransport_send_each E ps t
    = (Ret tt,
       record_all (websocket_effects E (supports_binary t) (log t) ps) t).
Proof.
  induction ps as [ | p r IH ]; intros t Hws; [ reflexivity | ].
  cbn [WebsocketTransport_send_each websocket_effects]. cbv [bind get].
  rewrite Hws.
  destruct (ws_send E (log t) (encode_packet E p (supports_binary t)) _)
    as [e | ]; cbv [on_error modify emit_plain];
    rewrite IH by exact Hws; reflexivity.
Qed.

Lemma websocket_effects_shape (E : env) (binary_ok : bool)
  (ps : list packet) :
  forall history,
    Forall2 (frame_or_error E binary_ok) ps
      (websocket_effects E binary_ok history ps).
Proof.
  induction ps as [ | p r IH ]; intros history; cbn [websocket_effects];
    constructor; [ | apply IH ].
  destruct (ws_send E history _ _) as [e | ];
    [ right; exists e; reflexivity | left; reflexivity ].
Qed.

Lemma websocket_effects_healthy (E : env) (binary_ok : bool)
  (ps : list packet) :
  (forall history w b, ws_send E history w b = None) ->
  forall history,
    websocket_effects E binary_ok history ps = map (frame E binary_ok) ps.
Proof.
  intros Hok. induction ps as [ | p r IH ]; intros history;
    cbn [websocket_effects map]; [ reflexivity | ].
  rewrite Hok, IH. reflexivity.
Qed.

(** On a connected websocket whose sends succeed or fail with the
    [RuntimeError] the code catches, [write] returns: for each packet, in
    order, the frame is sent when the send succeeds and an [error] event
    with the text of the failure is emitted when it fails, and the packets
    after a failed send are still attempted; then [drain] is emitted, once,
    and the transport is writable. When no send fails, every frame goes
    out. *)
Theorem websocket_write_attempts_all (E : env) (packets : list packet)
  (t : transport) :
  cls t = WebsocketTransport -> websocket t = true ->
  fst (write E packets t) = Ret tt
  /\ writable (snd (write E packets t)) = true
  /\ since t (snd (write E packets t))
     = websocket_effects E (supports_binary t) (log t) packets
       ++ [Emit EvDrain]
  /\ Forall2 (frame_or_error E (supports_binary t)) packets
       (websocket_effects E (supports_binary t) (log t) packets)
  /\ ((forall history w b, ws_send E history w b = None) ->
      since t (snd (write E packets t))
      = map (frame E (supports_binary t)) packets ++ [Emit EvDrain]).
Proof.
  intros Hcls Hws.
  assert (Hsince : since t (snd (write E packets t))
                   = websocket_effects E (supports_binary t) (log t) packets
                     ++ [Emit EvDrain]
                   /\ fst (write E packets t) = Ret tt
                   /\ writable (snd (write E packets t)) = true).
  { cbv [write bind get]. rewrite Hcls.
    cbv [WebsocketTransport_write bind modify].
    rewrite (send_each_trace E packets (set_writable false t) Hws).
    cbn [set_writable supports_binary log].
    cbv [WebsocketTransport_on_drain bind modify emit_plain]. cbn [fst snd].
    split; [ | split; [ reflexivity | ] ].
    - apply since_app. rewrite (proj1 (fire_frame _ _)).
      cbn [record set_writable log].
      rewrite (proj1 (record_all_frame _ (set_writable false t))).
      cbn [set_writable log]. rewrite <- app_assoc. reflexivity.
    - rewrite (proj1 (proj2 (fire_frame _ _))). reflexivity. }
  destruct Hsince as [Hs [Hf Hw]].
  split; [ exact Hf | split; [ exact Hw | split; [ exact Hs | split ] ] ].
  - apply websocket_effects_shape.
  - intros Hok. rewrite Hs, (websocket_effects_healthy E _ packets Hok).
    reflexivity.
Qed.

Lemma websocket_write_attempts_all_witness :
  (fst (write flaky_ws_env
          [mkPacket "message" (Some (Bytearray [x00])); message "b"]
          open_websocket) = Ret tt
   /\ since open_websocket
        (snd (write flaky_ws_env
                [mkPacket "message" (Some (Bytearray [x00])); message "b"]
                open_websocket))
      = [Emit (EvError "The websocket clsoed without a close packet (%s)"
                 "closed");
         WsSend (Str "b") false;
         Emit EvDrain])
  /\ since open_websocket
       (snd (write (test_env 200 []) [message "a"; message "b"] open_websocket))
     = [WsSend (Str "4") false; WsSend (Str "4") false; Emit EvDrain].
Proof.
  split.
  - destruct (websocket_write_attempts_all flaky_ws_env
                [mkPacket "message" (Some (Bytearray [x00])); message "b"]
                open_websocket eq_refl eq_refl) as [H1 [_ [H2 _]]].
    split; [ exact H1 | exact H2 ].
  - apply (websocket_write_attempts_all (test_env 200 [])
             [message "a"; message "b"] open_websocket eq_refl eq_refl).
    reflexivity.
Defined.

(** A failed send does not stop the batch: the frame after it goes out. *)
Example websocket_write_after_failure :
  since open_websocket
    (snd (write flaky_ws_env
            [mkPacket "message" (Some (Bytearray [x00])); message "b"]
            open_websocket))
  = [Emit (EvError "The websocket clsoed without a close packet (%s)" "closed");
     WsSend (Str "b") false;
     Emit EvDrain].
Proof. reflexivity. Qed.

Lemma read_eq (E : env) (frames : list wire) :
  forall t,
    polling_kind (cls t) = false ->
    WebsocketTransport_read E frames t
    = (Ret tt,
       record_all (packet_events (map (decode_packet E) frames)) t).
Proof.
  induction frames as [ | f r IH ]; intros t Hk; [ reflexivity | ].
  cbn [WebsocketTransport_read]. cbv [bind on_data get]. rewrite Hk.
  cbv [Transport_on_data bind on_packet emit modify emit_plain ret].
  rewrite IH by exact Hk. reflexivity.
Qed.

(** The read loop hands every frame it receives to the decoder and
    dispatches the packets in the order of the frames; it emits nothing
    else, and when the stream ends it returns with [ready_state] and
    [writable] as they were: it does not close the transport. *)
Theorem read_dispatches_in_order (E : env) (frames : list wire)
  (t : transport) :
  polling_kind (cls t) = false ->
  fst (WebsocketTransport_read E frames t) = Ret tt
  /\ since t (snd (WebsocketTransport_read E frames t))
     = packet_events (map (decode_packet E) frames)
  /\ ready_state (snd (WebsocketTransport_read E frames t)) = ready_state t
  /\ writable (snd (WebsocketTransport_read E frames t)) = writable t.
Proof.
  intros Hk. rewrite (read_eq E frames t Hk). cbn [fst snd].
  destruct (record_all_frame (packet_events (map (decode_packet E) frames)) t)
    as [H1 [H2 [H3 _]]].
  split; [ reflexivity | split; [ | split ] ]; try assumption.
  apply since_app. exact H1.
Qed.

Lemma read_dispatches_in_order_witness :
  since open_websocket
    (snd (WebsocketTransport_read (test_env 200 []) [Str "a"; Bytearray [x01]]
            open_websocket))
  = [Emit (EvPacket (mkPacket "message" (Some (Str "a"))));
     Emit (EvPacket (mkPacket "message" (Some (Bytearray [x01]))))].
Proof.
  apply (read_dispatches_in_order (test_env 200 []) [Str "a"; Bytearray [x01]]
           open_websocket).
  reflexivity.
Defined.

(** [open()] on a websocket transport that is closed or new, when the
    connection succeeds, returns with the transport open and writable and
    [open] emitted once. *)
Theorem websocket_open (E : env) (fuel : nat) (t : transport) :
  cls t = WebsocketTransport ->
  ready_state t = None \/ ready_state t = Some Closed ->
  deferred_close t = 0%nat ->
  exists t',
    open E fuel t = Some (Ret tt, t')
    /\ ready_state t' = Some Open
    /\ writable t' = true
    /\ websocket t' = true
    /\ since t t' = [Emit EvOpen].
Proof.
  intros Hcls Hrs Hd. unfold open.
  replace (is_state Closed (ready_state t)
           || match ready_state t with None => true | Some _ => false end)
    with true by (destruct Hrs as [-> | ->]; reflexivity).
  unfold do_open. cbn [set_ready_state cls]. rewrite Hcls.
  cbv [WebsocketTransport_do_open on_open emit bind modify get].
  cbn [set_ready_state set_websocket set_writable record set_deferred_close
       deferred_close].
  rewrite Hd. cbn [run_deferred]. cbv [ret].
  eexists. split; [ reflexivity | ].
  cbn [ready_state writable websocket].
  repeat split. apply since_app. reflexivity.
Qed.

Lemma websocket_open_witness :
  exists t',
    open (test_env 200 []) 0
      (init WebsocketTransport "/engine.io" "localhost" (Some 8080) false false)
    = Some (Ret tt, t')
    /\ ready_state t' = Some Open
    /\ writable t' = true
    /\ websocket t' = true
    /\ since (init WebsocketTransport "/engine.io" "localhost" (Some 8080)
                false false) t' = [Emit EvOpen].
Proof.
  apply (websocket_open (test_env 200 []) 0
           (init WebsocketTransport "/engine.io" "localhost" (Some 8080)
              false false));
    [ reflexivity | left; reflexivity | reflexivity ].
Defined.

End Websocket.

(** * More on [pause] *)

Section PauseMore.

Import Transports.

(** With no poll in flight and no write pending, [pause] completes on the
    spot: it returns without error in state [paused], blocking or not,
    whatever the other tasks would have emitted, and emits nothing. *)
Theorem pause_idle (E : env) (nowait : bool) (timeout : Z)
  (schedule : list event) (t : transport) :
  polling t = false -> writable t = true ->
  fst (PollingTransport_pause E nowait timeout schedule t) = Ret tt
  /\ ready_state (snd (PollingTransport_pause E nowait timeout schedule t))
     = Some Paused
  /\ log (snd (PollingTransport_pause E nowait timeout schedule t)) = log t.
Proof.
  intros Hp Hw. unfold PollingTransport_pause, bind, pause_begin.
  cbn [set_ready_state polling writable pauses]. rewrite Hp, Hw. cbn [orb negb].
  destruct nowait; cbn [negb]; [ repeat split | ].
  set (t2 := set_pauses _ _).
  assert (Hset : event_set (List.length (pauses t)) t2 = true).
  { unfold event_set, t2. cbn [set_pauses pauses].
    rewrite nth_error_last. reflexivity. }
  assert (Hwait : wait E (List.length (pauses t)) schedule t2 = (true, t2)).
  { destruct schedule; cbn [wait]; rewrite Hset; reflexivity. }
  rewrite Hwait. repeat split.
Qed.

Lemma pause_idle_witness :
  fst (PollingTransport_pause (test_env 200 []) false 30 [EvPoll] idle_transport)
  = Ret tt
  /\ ready_state
       (snd (PollingTransport_pause (test_env 200 []) false 30 [EvPoll]
               idle_transport))
     = Some Paused
  /\ log (snd (PollingTransport_pause (test_env 200 []) false 30 [EvPoll]
                 idle_transport))
     = log idle_transport.
Proof.
  apply (pause_idle (test_env 200 []) false 30 [EvPoll] idle_transport);
    reflexivity.
Defined.

(** A blocking [pause] waits for exactly the conditions outstanding when it
    was called: it returns, in state [paused], once a [poll_complete] has
    been emitted if a poll was in flight and a [drain] if a write was
    pending; and when it returns those events have been emitted. *)
Theorem pause_waits_for_outstanding (E : env) (timeout : Z)
  (schedule : list event) (t : transport) :
  polling t = true \/ writable t = false ->
  let r := PollingTransport_pause E false timeout schedule t in
  ((polling t = true -> In EvPollComplete schedule) ->
   (writable t = false -> In EvDrain schedule) ->
   fst r = Ret tt /\ ready_state (snd r) = Some Paused)
  /\ (fst r = Ret tt ->
      (polling t = true ->
       existsb is_emit_poll_complete (since t (snd r)) = true)
      /\ (writable t = false ->
          existsb is_emit_drain (since t (snd r)) = true)).
Proof.
  intros Hbusy r. subst r.
  unfold PollingTransport_pause, bind.
  rewrite pause_begin_busy by exact Hbusy. cbn [negb].
  set (c0 := mkContext _ (Some false) _ _).
  set (t2 := set_pauses (pauses t ++ [c0]) (set_ready_state (Some Pausing) t)).
  set (id := List.length (pauses t)).
  destruct (wait_spec E id schedule t2) as [l [Ev [Hfst Hall]]].
  destruct (wait E id schedule t2) as [paused t3]. cbn [fst snd] in *.
  assert (Hc0 : nth_error (pauses t2) id = Some c0) by apply nth_error_last.
  pose proof (event_set_evolves t2 t3 l id c0 Ev Hc0) as Hc3.
  assert (Hlog : since t t3 = l).
  { apply since_app. rewrite (ev_log _ _ _ Ev). reflexivity. }
  unfold event_set in Hfst. rewrite Hc3 in Hfst.
  assert (Hev : ev (advance (existsb is_emit_poll_complete l)
                      (existsb is_emit_drain l) c0)
                = Some ((negb (polling t) || existsb is_emit_poll_complete l)
                        && (writable t || existsb is_emit_drain l))).
  { unfold c0, advance, fire_context.
    destruct (polling t), (writable t),
      (existsb is_emit_poll_complete l), (existsb is_emit_drain l);
      try reflexivity.
    destruct Hbusy; discriminate. destruct Hbusy; discriminate.
    destruct Hbusy; discriminate. destruct Hbusy; discriminate. }
  rewrite Hev in Hfst.
  destruct paused; cbn [fst snd]; rewrite Hlog.
  - split.
    + intros _ _. split; [ reflexivity | ].
      refine (ev_paused _ _ _ Ev id c0 _ Hc0 Hc3 eq_refl _).
      rewrite Hev, <- Hfst. reflexivity.
    + intros _. symmetry in Hfst. apply andb_true_iff in Hfst as [H1 H2].
      split; intros H; rewrite H in *; cbn [negb orb] in *; assumption.
  - split; [ | discriminate ].
    intros Hpc Hdr. exfalso. specialize (Hall eq_refl).
    assert (H1 : negb (polling t) || existsb is_emit_poll_complete l = true).
    { destruct (polling t); [ cbn [negb orb] | reflexivity ].
      exact (existsb_In_emit is_emit_poll_complete EvPollComplete l eq_refl
               (Hall _ (Hpc eq_refl))). }
    assert (H2 : writable t || existsb is_emit_drain l = true).
    { destruct (writable t); [ reflexivity | cbn [orb] ].
      exact (existsb_In_emit is_emit_drain EvDrain l eq_refl
               (Hall _ (Hdr eq_refl))). }
    rewrite H1, H2 in Hfst. discriminate Hfst.
Qed.

Lemma pause_waits_for_outstanding_witness :
  fst (PollingTransport_pause (test_env 200 []) false 30 [EvPollComplete]
         polling_transport) = Ret tt
  /\ ready_state
       (snd (PollingTransport_pause (test_env 200 []) false 30 [EvPollComplete]
               polling_transport))
     = Some Paused.
Proof.
  apply (proj1 (pause_waits_for_outstanding (test_env 200 []) 30
                  [EvPollComplete] polling_transport (or_introl eq_refl)));
    [ intros _; simpl; tauto | intros H; discriminate H ].
Defined.

Lemma emit_plain_ready_state (e : event) (t : transport) :
  ready_state (emit_plain e t) = ready_state t
  \/ ready_state (emit_plain e t) = Some Paused.
Proof.
  unfold emit_plain. destruct e; try (left; reflexivity);
    rewrite fire_ready_state;
    match goal with
    | |- context [ if ?b then _ else _ ] => destruct b
    end; [ right | left | right | left ]; reflexivity.
Qed.

Lemma emit_all_paused (events : list event) :
  forall t, ready_state t = Some Paused ->
            ready_state (emit_all events t) = Some Paused.
Proof.
  induction events as [ | e r IH ]; intros t H; [ exact H | ].
  cbn [emit_all fold_left]. apply IH.
  destruct (emit_plain_ready_state e t) as [R | R]; congruence.
Qed.

Lemma emit_plain_pauses (e : event) (t : transport) :
  pauses (emit_plain e t)
  = match e with
    | EvPollComplete => map (fun c => fst (fire_context OnPollComplete c)) (pauses t)
    | EvDrain => map (fun c => fst (fire_context OnDrain c)) (pauses t)
    | _ => pauses t
    end.
Proof.
  unfold emit_plain, fire. destruct e; try reflexivity;
    match goal with
    | |- context [ if ?b then _ else _ ] => destruct b
    end; cbn [set_ready_state set_pauses pauses record]; rewrite map_map;
    reflexivity.
Qed.

Lemma emit_plain_completes (h : hook) (e : event) (t : transport) (id : nat)
  (c : pause_context) :
  match h with OnPollComplete => e = EvPollComplete | OnDrain => e = EvDrain end ->
  nth_error (pauses t) id = Some c ->
  snd (fire_context h c) = true ->
  ready_state (emit_plain e t) = Some Paused.
Proof.
  intros He Hc Hs.
  assert (Hex : existsb snd (map (fire_context h) (pauses t)) = true).
  { apply existsb_exists. exists (fire_context h c). split; [ | exact Hs ].
    apply in_map. apply nth_error_In with id. exact Hc. }
  unfold emit_plain. destruct h; subst e; rewrite fire_ready_state;
    cbn [record pauses]; rewrite Hex; reflexivity.
Qed.

(** Once every listener a waiting context still has has seen its event,
    the transport is paused. *)
Lemma emit_all_completes (id : nat) (events : list event) :
  forall t c,
    nth_error (pauses t) id = Some c ->
    waiting c ->
    (on_poll_complete c = true -> In EvPollComplete events) ->
    (on_drain c = true -> In EvDrain events) ->
    ready_state (emit_all events t) = Some Paused.
Proof.
  induction events as [ | e r IH ]; intros t c Hc [Htot Hreg] Hpc Hdr.
  - exfalso. apply orb_true_iff in Hreg as [H | H];
      [ exact (Hpc H) | exact (Hdr H) ].
  - cbn [emit_all fold_left]. fold (emit_all r (emit_plain e t)).
    assert (Hother :
              e <> EvPollComplete -> e <> EvDrain ->
              ready_state (emit_all r (emit_plain e t)) = Some Paused).
    { intros N1 N2. apply (IH (emit_plain e t) c).
      - rewrite emit_plain_pauses.
        destruct e; try exact Hc;
          [ exfalso; apply N2; reflexivity | exfalso; apply N1; reflexivity ].
      - split; assumption.
      - intros H. destruct (Hpc H) as [Heq | Hin];
          [ exfalso; apply N1; exact Heq | exact Hin ].
      - intros H. destruct (Hdr H) as [Heq | Hin];
          [ exfalso; apply N2; exact Heq | exact Hin ]. }
    destruct c as [n x p d]. cbn [total on_poll_complete on_drain] in *.
    destruct e; try (apply Hother; discriminate).
    + (* drain *)
      destruct d.
      * destruct p.
        -- apply (IH (emit_plain EvDrain t) (mkContext (n - 1) x true false)).
           ++ rewrite emit_plain_pauses, nth_error_map, Hc. cbn.
              replace (n - 1 =? 0) with false by (symmetry; apply Z.eqb_neq; lia).
              reflexivity.
           ++ split; [ cbn; lia | reflexivity ].
           ++ intros _. destruct (Hpc eq_refl) as [H | H];
                [ discriminate H | exact H ].
           ++ intros H. discriminate H.
        -- apply emit_all_paused.
           apply (emit_plain_completes OnDrain EvDrain t id _ eq_refl Hc).
           cbn. replace (n - 1 =? 0) with true by (symmetry; apply Z.eqb_eq; lia).
           reflexivity.
      * apply (IH (emit_plain EvDrain t) (mkContext n x p false)).
        -- rewrite emit_plain_pauses, nth_error_map, Hc. reflexivity.
        -- split; assumption.
        -- intros H. destruct (Hpc H) as [H' | H']; [ discriminate H' | exact H' ].
        -- intros H. discriminate H.
    + (* poll_complete *)
      destruct p.
      * destruct d.
        -- apply (IH (emit_plain EvPollComplete t) (mkContext (n - 1) x false true)).
           ++ rewrite emit_plain_pauses, nth_error_map, Hc. cbn.
              replace (n - 1 =? 0) with false by (symmetry; apply Z.eqb_neq; lia).
              reflexivity.
           ++ split; [ cbn; lia | reflexivity ].
           ++ intros H. discriminate H.
           ++ intros _. destruct (Hdr eq_refl) as [H | H];
                [ discriminate H | exact H ].
        -- apply emit_all_paused.
           apply (emit_plain_completes OnPollComplete EvPollComplete t id _
                    eq_refl Hc).
           cbn. replace (n - 1 =? 0) with true by (symmetry; apply Z.eqb_eq; lia).
           reflexivity.
      * apply (IH (emit_plain EvPollComplete t) (mkContext n x false d)).
        -- rewrite emit_plain_pauses, nth_error_map, Hc. reflexivity.
        -- split; assumption.
        -- intros H. discriminate H.
        -- intros H. destruct (Hdr H) as [H' | H']; [ discriminate H' | exact H' ].
Qed.

(** [pause(nowait=True)] with a poll in flight or a write pending returns
    at once, without error, in state [pausing], and emits nothing; once the
    other tasks have emitted the events outstanding, [ready_state] is
    [paused]. *)
Theorem pause_nowait_completes_later (E : env) (timeout : Z)
  (schedule events : list event) (t : transport) :
  polling t = true \/ writable t = false ->
  (polling t = true -> In EvPollComplete events) ->
  (writable t = false -> In EvDrain events) ->
  let r := PollingTransport_pause E true timeout schedule t in
  fst r = Ret tt
  /\ ready_state (snd r) = Some Pausing
  /\ log (snd r) = log t
  /\ ready_state (emit_all events (snd r)) = Some Paused.
Proof.
  intros Hbusy Hpc Hdr r. subst r.
  unfold PollingTransport_pause, bind, pause_begin.
  cbn [set_ready_state polling writable pauses total ev on_poll_complete
       on_drain negb].
  replace (polling t || negb (writable t)) with true
    by (destruct Hbusy as [-> | ->]; [ reflexivity | symmetry; apply orb_true_r ]).
  cbn [ret fst snd]. repeat split.
  eapply (emit_all_completes (List.length (pauses t)) events).
  - cbn [set_pauses pauses]. apply nth_error_last.
  - split; destruct (polling t), (writable t); try reflexivity;
      destruct Hbusy; discriminate.
  - destruct (polling t), (writable t); cbn; intros H;
      try discriminate H; apply Hpc; reflexivity.
  - destruct (polling t), (writable t); cbn; intros H;
      try discriminate H; apply Hdr; reflexivity.
Qed.

Lemma pause_nowait_completes_later_witness :
  ready_state
    (snd (PollingTransport_pause (test_env 200 []) true 30 [] busy_transport))
  = Some Pausing
  /\ ready_state
       (emit_all [EvDrain; EvPoll; EvPollComplete]
          (snd (PollingTransport_pause (test_env 200 []) true 30 []
                  busy_transport)))
     = Some Paused.
Proof.
  destruct (pause_nowait_completes_later (test_env 200 []) 30 []
              [EvDrain; EvPoll; EvPollComplete] busy_transport
              (or_introl eq_refl)
              ltac:(intros _; simpl; tauto) ltac:(intros _; simpl; tauto))
    as [_ [H1 [_ H2]]].
  split; [ exact H1 | exact H2 ].
Defined.

End PauseMore.

(** * More on the payloads of the polling transport *)

Section OnDataMore.

Import Transports.

(** On a transport that is not [opening], a payload without a [close]
    packet runs through the loop: every packet is dispatched, in order, and
    nothing else happens. *)
Lemma loop_no_close (E : env) (ps : list packet) :
  forall t,
    is_state Opening (ready_state t) = false ->
    existsb is_close ps = false ->
    PollingTransport_on_data_loop E ps t
    = (Ret true, record_all (packet_events ps) t).
Proof.
  induction ps as [ | p r IH ]; intros t Hop Hnc; [ reflexivity | ].
  cbn [existsb] in Hnc. apply orb_false_iff in Hnc as [Hp Hr].
  cbn [PollingTransport_on_data_loop]. cbv [bind get]. rewrite Hop.
  cbv [ret]. unfold is_close in Hp. rewrite Hp.
  cbv [on_packet emit modify emit_plain].
  rewrite IH by assumption. reflexivity.
Qed.

Lemma fire_inert (h : hook) (l : list pause_context) :
  forallb inert l = true ->
  existsb snd (map (fire_context h) l) = false
  /\ map fst (map (fire_context h) l) = l.
Proof.
  induction l as [ | c r IH ]; [ split; reflexivity | ].
  cbn [forallb]. intros H. apply andb_true_iff in H as [Hc Hr].
  destruct (IH Hr) as [H1 H2]. cbn [map existsb]. rewrite H1, H2.
  unfold inert in Hc. apply andb_true_iff in Hc as [Hp Hd].
  apply negb_true_iff in Hp, Hd.
  unfold fire_context. destruct h; cbn [registered]; rewrite ?Hp, ?Hd;
    split; reflexivity.
Qed.

(** A payload without a [close] packet, received by an open transport that
    knows its session id and has no pause pending: every packet is
    dispatched in order, the polling flag is cleared, [poll_complete] is
    emitted last, the transport is still open and [on_data] returns [True],
    which asks for the next poll. *)
Theorem on_data_asks_for_next_poll (E : env) (data : wire) (t : transport)
  (s : string) :
  ready_state t = Some Open -> sid t = Some s ->
  existsb is_close (decode_payload E data) = false ->
  forallb inert (pauses t) = true ->
  fst (PollingTransport_on_data E data t) = Ret (Some true)
  /\ since t (snd (PollingTransport_on_data E data t))
     = packet_events (decode_payload E data) ++ [Emit EvPollComplete]
  /\ polling (snd (PollingTransport_on_data E data t)) = false
  /\ ready_state (snd (PollingTransport_on_data E data t)) = Some Open.
Proof.
  intros Hrs Hsid Hnc Hin.
  unfold PollingTransport_on_data, bind.
  rewrite loop_no_close by (try rewrite Hrs; auto).
  set (ps := decode_payload E data).
  destruct (record_all_frame (packet_events ps) t)
    as [L [R [_ [_ [_ [_ [S [_ [P _]]]]]]]]].
  cbn [negb]. cbv [get]. rewrite R, S, Hrs, Hsid. cbn [is_state state_eqb andb negb].
  cbv [modify emit emit_plain].
  set (t1 := record (Emit EvPollComplete) (set_polling false _)).
  assert (Hp1 : pauses t1 = pauses t) by (unfold t1; cbn; exact P).
  destruct (fire_inert OnPollComplete (pauses t1)) as [F1 F2];
    [ rewrite Hp1; exact Hin | ].
  assert (Hrs1 : ready_state (fire OnPollComplete t1) = Some Open).
  { rewrite fire_ready_state, F1. unfold t1. cbn. rewrite R. exact Hrs. }
  rewrite Hrs1. cbn [is_state state_eqb ret fst snd].
  split; [ reflexivity | split; [ | split ] ].
  - apply since_app. rewrite (proj1 (fire_frame _ _)). unfold t1.
    cbn [record set_polling log]. rewrite L, <- app_assoc. reflexivity.
  - rewrite (proj1 (proj2 (proj2 (fire_frame _ _)))). reflexivity.
  - exact Hrs1.
Qed.

Lemma on_data_asks_for_next_poll_witness :
  fst (PollingTransport_on_data (test_env 200 [message "a"; message "b"])
         (Str "payload") open_xhr) = Ret (Some true)
  /\ since open_xhr
       (snd (PollingTransport_on_data (test_env 200 [message "a"; message "b"])
               (Str "payload") open_xhr))
     = [Emit (EvPacket (message "a")); Emit (EvPacket (message "b"));
        Emit EvPollComplete].
Proof.
  destruct (on_data_asks_for_next_poll (test_env 200 [message "a"; message "b"])
              (Str "payload") open_xhr "s" eq_refl eq_refl eq_refl eq_refl)
    as [H1 [H2 _]].
  split; [ exact H1 | exact H2 ].
Defined.

(** The poll that ends a pause: after [pause(nowait=True)] on a transport
    with a poll in flight and nothing to write, the next payload (without a
    [close] packet) is dispatched in full, its [poll_complete] completes the
    pause, and [on_data] returns [None] in state [paused], so that no
    further poll is asked for. *)
Theorem on_data_completes_pause (E : env) (timeout : Z)
  (schedule : list event) (data : wire) (t : transport) :
  polling t = true -> writable t = true ->
  existsb is_close (decode_payload E data) = false ->
  let t1 := snd (PollingTransport_pause E true timeout schedule t) in
  fst (PollingTransport_on_data E data t1) = Ret None
  /\ ready_state (snd (PollingTransport_on_data E data t1)) = Some Paused
  /\ polling (snd (PollingTransport_on_data E data t1)) = false
  /\ since t1 (snd (PollingTransport_on_data E data t1))
     = packet_events (decode_payload E data) ++ [Emit EvPollComplete].
Proof.
  intros Hp Hw Hnc t1.
  assert (Ht1 : t1 = set_pauses (pauses t ++ [mkContext 1 None true false])
                       (set_ready_state (Some Pausing) t)).
  { unfold t1, PollingTransport_pause, bind, pause_begin.
    cbn [set_ready_state polling writable pauses total ev on_poll_complete
         on_drain negb].
    rewrite Hp, Hw. reflexivity. }
  clearbody t1. subst t1.
  set (t1 := set_pauses _ _).
  unfold PollingTransport_on_data, bind.
  rewrite loop_no_close by (auto; reflexivity).
  set (ps := decode_payload E data).
  destruct (record_all_frame (packet_events ps) t1)
    as [L [R [_ [_ [_ [_ [_ [_ [P _]]]]]]]]].
  cbn [negb]. cbv [get]. rewrite R.
  change (ready_state t1) with (Some Pausing).
  cbn [is_state state_eqb andb negb].
  cbv [modify emit emit_plain].
  set (t2 := record (Emit EvPollComplete) (set_polling false _)).
  assert (Hrs2 : ready_state (fire OnPollComplete t2) = Some Paused).
  { rewrite fire_ready_state.
    replace (existsb snd (map (fire_context OnPollComplete) (pauses t2)))
      with true; [ reflexivity | ].
    unfold t2. cbn [record set_polling pauses]. rewrite P. unfold t1.
    cbn [set_pauses pauses]. rewrite map_app, existsb_app.
    symmetry. apply orb_true_iff. right. reflexivity. }
  rewrite Hrs2. cbn [is_state state_eqb ret fst snd].
  split; [ reflexivity | split; [ exact Hrs2 | split ] ].
  - rewrite (proj1 (proj2 (proj2 (fire_frame _ _)))). reflexivity.
  - apply since_app. rewrite (proj1 (fire_frame _ _)). unfold t2.
    cbn [record set_polling log]. rewrite L, <- app_assoc. reflexivity.
Qed.

Lemma on_data_completes_pause_witness :
  fst (PollingTransport_on_data (test_env 200 [message "a"]) (Str "payload")
         (snd (PollingTransport_pause (test_env 200 [message "a"]) true 30 []
                 polling_transport))) = Ret None
  /\ ready_state
       (snd (PollingTransport_on_data (test_env 200 [message "a"])
               (Str "payload")
               (snd (PollingTransport_pause (test_env 200 [message "a"]) true
                       30 [] polling_transport))))
     = Some Paused.
Proof.
  destruct (on_data_completes_pause (test_env 200 [message "a"]) 30 []
              (Str "payload") polling_transport eq_refl eq_refl eq_refl)
    as [H1 [H2 _]].
  split; [ exact H1 | exact H2 ].
Defined.

(** A payload that reaches a closed transport: its packets, when none is a
    [close] packet, are still dispatched, but the polling flag is not
    cleared and no [poll_complete] is emitted; [on_data] returns [None]. *)
Theorem on_data_when_closed (E : env) (data : wire) (t : transport) :
  ready_state t = Some Closed ->
  existsb is_close (decode_payload E data) = false ->
  PollingTransport_on_data E data t
  = (Ret None, record_all (packet_events (decode_payload E data)) t)
  /\ polling (snd (PollingTransport_on_data E data t)) = polling t
  /\ since t (snd (PollingTransport_on_data E data t))
     = packet_events (decode_payload E data).
Proof.
  intros Hrs Hnc.
  assert (Heq : PollingTransport_on_data E data t
                = (Ret None, record_all (packet_events (decode_payload E data)) t)).
  { unfold PollingTransport_on_data, bind.
    rewrite loop_no_close by (try rewrite Hrs; auto).
    destruct (record_all_frame (packet_events (decode_payload E data)) t)
      as [_ [R _]].
    cbn [negb]. cbv [get]. rewrite R, Hrs. reflexivity. }
  rewrite Heq. cbn [snd].
  destruct (record_all_frame (packet_events (decode_payload E data)) t)
    as [L [_ [_ [P _]]]].
  split; [ reflexivity | split; [ exact P | apply since_app; exact L ] ].
Qed.

Lemma on_data_when_closed_witness :
  PollingTransport_on_data (test_env 200 [message "a"]) (Str "payload")
    (test_transport XHRPollingTransport (Some Closed) (Some "s"))
  = (Ret None,
     record_all (packet_events [message "a"])
       (test_transport XHRPollingTransport (Some Closed) (Some "s"))).
Proof.
  apply (on_data_when_closed (test_env 200 [message "a"]) (Str "payload")
           (test_transport XHRPollingTransport (Some Closed) (Some "s")));
    reflexivity.
Defined.

(** An empty payload does not open an opening transport: no packet, no
    [open] event; the polling flag is cleared, [poll_complete] is emitted
    and [on_data] returns [None] with the transport not open. *)
Theorem on_data_empty_payload (E : env) (data : wire) (t : transport) :
  decode_payload E data = [] ->
  ready_state t = Some Opening ->
  fst (PollingTransport_on_data E data t) = Ret None
  /\ ready_state (snd (PollingTransport_on_data E data t)) <> Some Open
  /\ polling (snd (PollingTransport_on_data E data t)) = false
  /\ since t (snd (PollingTransport_on_data E data t)) = [Emit EvPollComplete].
Proof.
  intros Hd Hrs. unfold PollingTransport_on_data, bind. rewrite Hd.
  cbn [PollingTransport_on_data_loop]. cbv [ret get]. cbn [negb].
  rewrite Hrs. cbn [is_state state_eqb andb negb].
  cbv [modify emit emit_plain].
  set (t1 := record (Emit EvPollComplete) (set_polling false t)).
  assert (Hrs1 : ready_state (fire OnPollComplete t1) = Some Opening
                 \/ ready_state (fire OnPollComplete t1) = Some Paused).
  { rewrite fire_ready_state.
    destruct (existsb snd _); [ right; reflexivity | left; exact Hrs ]. }
  assert (Hno : is_state Open (ready_state (fire OnPollComplete t1)) = false)
    by (destruct Hrs1 as [-> | ->]; reflexivity).
  rewrite Hno. cbn [fst snd].
  split; [ reflexivity | split; [ | split ] ].
  - destruct Hrs1 as [-> | ->]; discriminate.
  - rewrite (proj1 (proj2 (proj2 (fire_frame _ _)))). reflexivity.
  - apply since_app. rewrite (proj1 (fire_frame _ _)). reflexivity.
Qed.

Lemma on_data_empty_payload_witness :
  fst (PollingTransport_on_data (test_env 200 []) (Str "")
         (test_transport XHRPollingTransport (Some Opening) None)) = Ret None
  /\ polling
       (snd (PollingTransport_on_data (test_env 200 []) (Str "")
               (test_transport XHRPollingTransport (Some Opening) None)))
     = false.
Proof.
  destruct (on_data_empty_payload (test_env 200 []) (Str "")
              (test_transport XHRPollingTransport (Some Opening) None)
              eq_refl eq_refl) as [H1 [_ [H2 _]]].
  split; [ exact H1 | exact H2 ].
Defined.

End OnDataMore.

(** * Polling, opening and the deferred close *)

Section Polling.

Import Transports.

Lemma xhr_write_eq (E : env) (packets : list packet) (t : transport) :
  cls t = XHRPollingTransport ->
  let data := encode_payload E packets (supports_binary t) in
  let uri := PollingTransport_uri E t in
  let answer :=
    http E (log t) POST uri (Some data) (Some (post_content_type data)) in
  let sent :=
    record (Request POST uri (Some data) (Some (post_content_type data)))
      (set_writable false t) in
  write E packets t
  = (Ret tt,
     emit_plain EvDrain
       (set_writable true
          (if is_2xx answer then sent
           else emit_plain (EvError "xhr request failed" (content answer)) sent))).
Proof.
  intros Hcls data uri answer sent.
  cbv [write bind get]. rewrite Hcls.
  cbv [PollingTransport_write do_write bind modify get].
  cbn [set_writable cls]. rewrite Hcls.
  cbv [XHRPollingTransport_do_write bind request].
  cbn [set_writable supports_binary log].
  change (PollingTransport_uri E (set_writable false t)) with uri.
  fold data.
  replace (Some match data with
                | Bytearray _ => "application/octet-stream"
                | Str _ => "text/plain;charset=UTF-8"
                end) with (Some (post_content_type data))
    by (destruct data; reflexivity).
  fold answer. fold sent.
  destruct (is_2xx answer); reflexivity.
Qed.

(** A close requested before the transport is open is not lost and not
    sent early: [on_close] posts nothing; the next [on_open] emits [open]
    and then posts the close packet, once, and emits [drain]; a later
    [open] event posts nothing more. *)
Theorem deferred_close_runs_once (E : env) (t : transport) :
  cls t = XHRPollingTransport ->
  ready_state t <> Some Open ->
  deferred_close t = 0%nat ->
  let t1 := snd (PollingTransport_on_close E t) in
  let t2 := snd (on_open E t1) in
  let data := encode_payload E [close_packet] (supports_binary t) in
  let uri := PollingTransport_uri E (record (Emit EvOpen) t) in
  let answer :=
    http E (log t ++ [Emit EvOpen]) POST uri (Some data)
      (Some (post_content_type data)) in
  fst (PollingTransport_on_close E t) = Ret tt
  /\ log t1 = log t
  /\ fst (on_open E t1) = Ret tt
  /\ since t1 t2
     = Emit EvOpen
       :: Request POST uri (Some data) (Some (post_content_type data))
       :: (if is_2xx answer then []
           else [Emit (EvError "xhr request failed" (content answer))])
       ++ [Emit EvDrain]
  /\ snd (emit E EvOpen t2) = record (Emit EvOpen) t2.
Proof.
  intros Hcls Hrs Hd t1 t2 data uri answer.
  assert (Hno : is_state Open (ready_state t) = false).
  { destruct (ready_state t) as [[ | | | | | ] | ]; try reflexivity.
    exfalso. apply Hrs. reflexivity. }
  assert (Ht1 : PollingTransport_on_close E t
                = (Ret tt, set_deferred_close 1 t)).
  { cbv [PollingTransport_on_close bind get modify]. rewrite Hno, Hd.
    reflexivity. }
  subst t2 t1. rewrite Ht1. cbn [fst snd].
  split; [ reflexivity | split; [ reflexivity | ] ].
  set (opened := set_deferred_close 0
                   (record (Emit EvOpen)
                      (set_writable true
                         (set_ready_state (Some Open)
                            (set_deferred_close 1 t))))).
  pose proof (xhr_write_eq E [close_packet] opened Hcls) as Hw.
  cbv zeta in Hw.
  change (supports_binary opened) with (supports_binary t) in Hw.
  change (PollingTransport_uri E opened) with uri in Hw.
  change (log opened) with (log t ++ [Emit EvOpen]) in Hw.
  fold data in Hw. fold answer in Hw.
  assert (Hopen : on_open E (set_deferred_close 1 t)
                  = (Ret tt, snd (write E [close_packet] opened))).
  { cbv [on_open bind modify emit get].
    cbn [set_deferred_close set_writable set_ready_state record deferred_close].
    cbn [run_deferred]. cbv [bind]. fold opened. rewrite Hw. reflexivity. }
  rewrite Hopen, Hw. cbn [fst snd].
  split; [ reflexivity | ].
  assert (Hdc : forall x, deferred_close (emit_plain EvDrain x) = deferred_close x).
  { intros x. unfold emit_plain.
    rewrite (proj1 (proj2 (proj2 (proj2 (fire_frame _ _))))). reflexivity. }
  assert (Hlog : forall x, log (emit_plain EvDrain x) = log x ++ [Emit EvDrain]).
  { intros x. unfold emit_plain. rewrite (proj1 (fire_frame _ _)). reflexivity. }
  split.
  - apply since_app. rewrite Hlog.
    destruct (is_2xx answer); cbn [set_writable record log emit_plain opened
                                   set_deferred_close];
      rewrite <- ?app_assoc; reflexivity.
  - set (t2 := emit_plain EvDrain _).
    assert (Hd2 : deferred_close t2 = 0%nat).
    { unfold t2. rewrite Hdc. destruct (is_2xx answer); reflexivity. }
    cbv [emit bind modify get]. cbn [fst snd].
    cbn [set_deferred_close record deferred_close]. rewrite Hd2.
    cbn [run_deferred]. cbv [ret]. cbn [snd]. rewrite <- Hd2. reflexivity.
Qed.

Lemma deferred_close_runs_once_witness :
  log (snd (PollingTransport_on_close (test_env 200 []) fresh_xhr))
  = log fresh_xhr
  /\ fst (on_open (test_env 200 [])
            (snd (PollingTransport_on_close (test_env 200 []) fresh_xhr)))
     = Ret tt.
Proof.
  destruct (deferred_close_runs_once (test_env 200 []) fresh_xhr eq_refl
              ltac:(discriminate) eq_refl) as [_ [H1 [H2 _]]].
  split; [ exact H1 | exact H2 ].
Defined.

Lemma poll_failed_eq (E : env) (t : transport) :
  cls t = XHRPollingTransport ->
  let uri := PollingTransport_uri E t in
  let answer := http E (log t) GET uri None None in
  let asked := record (Request GET uri None None) (set_polling true t) in
  is_2xx answer = false ->
  poll E t
  = (Ret tt,
     record (Emit EvPoll)
       (if 400 <=? status_code answer
        then record (Emit (EvError "xhr request failed" (content answer))) asked
        else asked)).
Proof.
  intros Hcls uri answer asked H2.
  cbv [poll bind modify do_poll get]. cbn [set_polling cls]. rewrite Hcls.
  cbv [XHRPollingTransport_do_poll bind request].
  cbn [set_polling log].
  change (PollingTransport_uri E (set_polling true t)) with uri.
  fold answer. rewrite H2.
  destruct (400 <=? status_code answer); reflexivity.
Qed.

(** A poll whose answer is not 2xx returns normally, but nothing ends it:
    the polling flag stays set, no [poll_complete] is emitted and
    [ready_state] is as before; a status of 400 or more is reported as an
    [error] event, then [poll] is emitted. *)
Theorem poll_failure_keeps_polling (E : env) (t : transport) :
  cls t = XHRPollingTransport ->
  let uri := PollingTransport_uri E t in
  let answer := http E (log t) GET uri None None in
  is_2xx answer = false ->
  fst (poll E t) = Ret tt
  /\ polling (snd (poll E t)) = true
  /\ ready_state (snd (poll E t)) = ready_state t
  /\ since t (snd (poll E t))
     = Request GET uri None None
       :: (if 400 <=? status_code answer
           then [Emit (EvError "xhr request failed" (content answer))]
           else [])
       ++ [Emit EvPoll].
Proof.
  intros Hcls uri answer H2.
  rewrite (poll_failed_eq E t Hcls H2). fold uri. fold answer. cbn [fst snd].
  destruct (400 <=? status_code answer);
    (split; [ reflexivity | split; [ reflexivity | split; [ reflexivity | ] ] ]);
    apply since_app; cbn [record set_polling log]; rewrite <- ?app_assoc;
    reflexivity.
Qed.

Lemma poll_failure_keeps_polling_witness :
  fst (poll failing_env open_xhr) = Ret tt
  /\ polling (snd (poll failing_env open_xhr)) = true.
Proof.
  destruct (poll_failure_keeps_polling failing_env open_xhr eq_refl eq_refl)
    as [H1 [H2 _]].
  split; [ exact H1 | exact H2 ].
Defined.

(** A failed handshake: when the first request of [open()] on a new or
    closed HTTP polling transport is not answered 2xx, [open()] returns
    without error after that one request, with the transport left in state
    [opening] and the polling flag set; calling [open()] again then does
    nothing. *)
Theorem open_failed_handshake (E : env) (fuel : nat) (t : transport) :
  cls t = XHRPollingTransport ->
  ready_state t = None \/ ready_state t = Some Closed ->
  let uri := PollingTransport_uri E t in
  let answer := http E (log t) GET uri None None in
  is_2xx answer = false ->
  exists t',
    open E fuel t = Some (Ret tt, t')
    /\ ready_state t' = Some Opening
    /\ polling t' = true
    /\ since t t'
       = Request GET uri None None
         :: (if 400 <=? status_code answer
             then [Emit (EvError "xhr request failed" (content answer))]
             else [])
         ++ [Emit EvPoll]
    /\ open E fuel t' = Some (Ret tt, t').
Proof.
  intros Hcls Hrs uri answer H2. unfold open at 1.
  replace (is_state Closed (ready_state t)
           || match ready_state t with None => true | Some _ => false end)
    with true by (destruct Hrs as [-> | ->]; reflexivity).
  unfold do_open. cbn [set_ready_state cls]. rewrite Hcls.
  unfold PollingTransport_do_open.
  rewrite (poll_failed_eq E (set_ready_state (Some Opening) t) Hcls H2).
  change (PollingTransport_uri E (set_ready_state (Some Opening) t)) with uri.
  change (log (set_ready_state (Some Opening) t)) with (log t).
  fold answer.
  set (t' := record (Emit EvPoll) _).
  assert (Hop : ready_state t' = Some Opening)
    by (unfold t'; destruct (400 <=? _); reflexivity).
  exists t'.
  split; [ destruct fuel; cbn [poll_while_open]; rewrite Hop; reflexivity | ].
  split; [ exact Hop | ].
  split; [ unfold t'; destruct (400 <=? _); reflexivity | ].
  split.
  - apply since_app. unfold t'.
    destruct (400 <=? _); cbn [record set_polling set_ready_state log];
      rewrite <- ?app_assoc; reflexivity.
  - unfold open. rewrite Hop. reflexivity.
Qed.

Lemma open_failed_handshake_witness :
  exists t',
    open failing_env 5 fresh_xhr = Some (Ret tt, t')
    /\ ready_state t' = Some Opening
    /\ polling t' = true
    /\ since fresh_xhr t'
       = [Request GET "http://localhost:8080/engine.io?EIO=3" None None;
          Emit (EvError "xhr request failed" "oops");
          Emit EvPoll]
    /\ open failing_env 5 t' = Some (Ret tt, t').
Proof.
  apply (open_failed_handshake failing_env 5 fresh_xhr);
    [ reflexivity | left; reflexivity | reflexivity ].
Defined.

Lemma poll_while_open_exit (E : env) (fuel : nat) :
  forall t t',
    poll_while_open E fuel t = Some (Ret tt, t') ->
    ready_state t' <> Some Open.
Proof.
  induction fuel as [ | k IH ]; intros t t' H; cbn [poll_while_open] in H.
  - destruct (is_state Open (ready_state t)) eqn:Ho; [ discriminate H | ].
    injection H as <-. intros Hrs. rewrite Hrs in Ho. discriminate Ho.
  - destruct (is_state Open (ready_state t)) eqn:Ho.
    + destruct (poll E t) as [[[] | e] t1]; [ | discriminate H ].
      exact (IH t1 t' H).
    + injection H as <-. intros Hrs. rewrite Hrs in Ho. discriminate Ho.
Qed.

Lemma poll_while_open_step (E : env) (fuel : nat) (t : transport) :
  is_state Open (ready_state t) = true ->
  poll_while_open E (S fuel) t = PollingTransport_do_open E fuel t.
Proof.
  intros Ho. cbn [poll_while_open]. rewrite Ho. reflexivity.
Qed.

Lemma do_open_after (E : env) (n : nat) :
  forall fuel t,
    (n <= fuel)%nat ->
    keeps_open E n t = true ->
    fst (poll E (after_polls E n t)) = Ret tt ->
    is_state Open (ready_state (snd (poll E (after_polls E n t)))) = false ->
    PollingTransport_do_open E fuel t
    = Some (Ret tt, snd (poll E (after_polls E n t))).
Proof.
  induction n as [ | k IH ]; intros fuel t Hle Hk Hret Hno.
  - cbn [after_polls] in *. unfold PollingTransport_do_open.
    destruct (poll E t) as [[[] | e] t1]; cbn [fst snd] in *;
      [ | discriminate Hret ].
    destruct fuel; cbn [poll_while_open]; rewrite Hno; reflexivity.
  - cbn [after_polls keeps_open] in *.
    destruct fuel as [ | f ]; [ lia | ].
    unfold PollingTransport_do_open at 1.
    destruct (poll E t) as [[[] | e] t1]; cbn [fst snd] in *;
      [ | discriminate Hk ].
    apply andb_true_iff in Hk as [Ho Hk].
    rewrite (poll_while_open_step E f t1 Ho).
    apply IH; [ lia | assumption | assumption | assumption ].
Qed.

Lemma do_open_out_of_fuel (E : env) (fuel : nat) :
  forall t,
    keeps_open E (S fuel) t = true ->
    PollingTransport_do_open E fuel t = None.
Proof.
  induction fuel as [ | f IH ]; intros t Hk; cbn [keeps_open] in Hk;
    unfold PollingTransport_do_open;
    destruct (poll E t) as [[[] | e] t1]; try discriminate Hk;
    apply andb_true_iff in Hk as [Ho Hk].
  - cbn [poll_while_open]. rewrite Ho. reflexivity.
  - rewrite (poll_while_open_step E f t1 Ho). apply IH. exact Hk.
Qed.

(** The drive loop of [open()] on a new or closed polling transport polls
    for exactly as long as the transport is open. If the first [n] polls
    return and leave it open and the next one returns and leaves it not
    open, [open()] returns the state after that poll, having run all
    [n + 1] of them; if every poll leaves it open, the loop is still polling
    after any number of polls; and whenever [open()] returns without error
    the transport is not open. *)
Theorem open_polls_while_open (E : env) (fuel : nat) (t : transport) :
  polling_kind (cls t) = true ->
  ready_state t = None \/ ready_state t = Some Closed ->
  let t0 := set_ready_state (Some Opening) t in
  (forall n,
     (n <= fuel)%nat ->
     keeps_open E n t0 = true ->
     fst (poll E (after_polls E n t0)) = Ret tt ->
     is_state Open (ready_state (snd (poll E (after_polls E n t0)))) = false ->
     open E fuel t = Some (Ret tt, snd (poll E (after_polls E n t0))))
  /\ (keeps_open E (S fuel) t0 = true -> open E fuel t = None)
  /\ (forall t', open E fuel t = Some (Ret tt, t') ->
                 ready_state t' <> Some Open).
Proof.
  intros Hk Hrs t0.
  assert (Hopen : open E fuel t = PollingTransport_do_open E fuel t0).
  { unfold open.
    replace (is_state Closed (ready_state t)
             || match ready_state t with None => true | Some _ => false end)
      with true by (destruct Hrs as [-> | ->]; reflexivity).
    unfold do_open. cbn [set_ready_state cls].
    destruct (cls t); try discriminate Hk; reflexivity. }
  rewrite Hopen. split; [ | split ].
  - intros n Hle Hko Hret Hno. apply do_open_after; assumption.
  - apply do_open_out_of_fuel.
  - intros t'. unfold PollingTransport_do_open.
    destruct (poll E t0) as [[[] | e] t1]; intros H; try discriminate H.
    exact (poll_while_open_exit E fuel t1 t' H).
Qed.

(** Two polls: the first payload opens the transport, the close packet of
    the second is answered with a close packet whose [drain] completes the
    pause, and the loop ends in state [paused]. *)
Lemma open_polls_while_open_witness :
  open two_step_env 3 armed_transport
  = Some (Ret tt,
          snd (poll two_step_env
                 (after_polls two_step_env 1
                    (set_ready_state (Some Opening) armed_transport))))
  /\ ready_state
       (snd (poll two_step_env
               (after_polls two_step_env 1
                  (set_ready_state (Some Opening) armed_transport))))
     = Some Paused
  /\ open two_step_env 0 armed_transport = None.
Proof.
  split; [ | split ].
  - apply (proj1 (open_polls_while_open two_step_env 3 armed_transport
                    eq_refl (or_introl eq_refl)) 1%nat);
      [ lia | reflexivity | reflexivity | reflexivity ].
  - reflexivity.
  - apply (proj1 (proj2 (open_polls_while_open two_step_env 0 armed_transport
                           eq_refl (or_introl eq_refl)))).
    reflexivity.
Defined.

(** The requests and events of those two polls. *)
Example open_two_polls :
  option_map (fun r => log (snd r)) (open two_step_env 3 armed_transport)
  = Some
      [Request GET "http://localhost:8080/engine.io?EIO=3" None None;
       Emit EvOpen;
       Emit (EvPacket (message "a"));
       Emit EvPollComplete;
       Emit EvPoll;
       Request GET "http://localhost:8080/engine.io?EIO=3" None None;
       Request POST "http://localhost:8080/engine.io?EIO=3" (Some (Str "1:1"))
         (Some "text/plain;charset=UTF-8");
       Emit EvDrain;
       Emit EvPoll].
Proof. reflexivity. Qed.

End Polling.

(** * A successful poll *)

Section PollSuccess.

Import Transports.

Lemma on_data_open_eq (E : env) (data : wire) (t : transport) (s : string) :
  ready_state t = Some Open -> sid t = Some s ->
  existsb is_close (decode_payload E data) = false ->
  forallb inert (pauses t) = true ->
  PollingTransport_on_data E data t
  = (Ret (Some true),
     fire OnPollComplete
       (record (Emit EvPollComplete)
          (set_polling false
             (record_all (packet_events (decode_payload E data)) t))))
  /\ ready_state
       (fire OnPollComplete
          (record (Emit EvPollComplete)
             (set_polling false
                (record_all (packet_events (decode_payload E data)) t))))
     = Some Open.
Proof.
  intros Hrs Hsid Hnc Hin.
  set (ps := decode_payload E data).
  destruct (record_all_frame (packet_events ps) t)
    as [L [R [_ [_ [_ [_ [S [_ [P _]]]]]]]]].
  set (t1 := record (Emit EvPollComplete) (set_polling false _)).
  assert (Hp1 : pauses t1 = pauses t) by (unfold t1; cbn; exact P).
  destruct (fire_inert OnPollComplete (pauses t1)) as [F1 _];
    [ rewrite Hp1; exact Hin | ].
  assert (Hrs1 : ready_state (fire OnPollComplete t1) = Some Open).
  { rewrite fire_ready_state, F1. unfold t1. cbn. rewrite R. exact Hrs. }
  split; [ | exact Hrs1 ].
  unfold PollingTransport_on_data, bind.
  rewrite loop_no_close by (try rewrite Hrs; auto).
  fold ps. cbn [negb]. cbv [get]. rewrite R, S, Hrs, Hsid.
  cbn [is_state state_eqb andb negb].
  cbv [modify emit emit_plain]. fold t1. rewrite Hrs1. reflexivity.
Qed.

(** A poll answered 2xx, by a response that carries a [content-type]
    header, on an open HTTP polling transport that knows its session id and
    has no pause pending: one GET is issued, the packets of the payload
    (none of them [close]) are dispatched in order, then [poll_complete]
    and, last, [poll] are emitted; the polling flag is cleared again and the
    transport is still open. The payload is the body as bytes when the
    header is [application/octet-stream], the body as text when binary is
    unsupported, and the text [ok] otherwise. *)
Theorem poll_success (E : env) (t : transport) (s : string) :
  cls t = XHRPollingTransport ->
  ready_state t = Some Open -> sid t = Some s ->
  forallb inert (pauses t) = true ->
  let uri := PollingTransport_uri E t in
  let answer := http E (log t) GET uri None None in
  let ps := decode_payload E (response_data (supports_binary t) answer) in
  is_2xx answer = true ->
  existsb is_close ps = false ->
  fst (poll E t) = Ret tt
  /\ since t (snd (poll E t))
     = Request GET uri None None
       :: packet_events ps ++ [Emit EvPollComplete; Emit EvPoll]
  /\ polling (snd (poll E t)) = false
  /\ ready_state (snd (poll E t)) = Some Open.
Proof.
  intros Hcls Hrs Hsid Hin uri answer ps H2 Hnc.
  cbv [poll bind modify do_poll get]. cbn [set_polling cls]. rewrite Hcls.
  cbv [XHRPollingTransport_do_poll bind request].
  cbn [set_polling log].
  change (PollingTransport_uri E (set_polling true t)) with uri.
  fold answer. rewrite H2.
  set (t1 := record (Request GET uri None None) (set_polling true t)).
  cbv [XHRPollingTransport_on_load bind get on_data].
  change (cls t1) with (cls t). rewrite Hcls. cbn [polling_kind].
  change (supports_binary t1) with (supports_binary t).
  fold (response_data (supports_binary t) answer).
  destruct (on_data_open_eq E (response_data (supports_binary t) answer) t1 s
              Hrs Hsid Hnc Hin) as [Heq Hopen].
  fold ps in Heq, Hopen. rewrite Heq.
  cbv [ret emit modify emit_plain]. cbn [fst snd].
  destruct (record_all_frame (packet_events ps) t1) as [L _].
  split; [ reflexivity | split; [ | split ] ].
  - apply since_app. cbn [record log]. rewrite (proj1 (fire_frame _ _)).
    cbn [record set_polling log]. rewrite L. unfold t1.
    cbn [record set_polling log]. rewrite <- !app_assoc. reflexivity.
  - cbn [record polling].
    rewrite (proj1 (proj2 (proj2 (fire_frame _ _)))). reflexivity.
  - exact Hopen.
Qed.

Lemma poll_success_witness :
  fst (poll (test_env 200 [message "a"]) open_xhr) = Ret tt
  /\ since open_xhr (snd (poll (test_env 200 [message "a"]) open_xhr))
     = [Request GET "http://localhost:8080/engine.io?EIO=3&sid=s" None None;
        Emit (EvPacket (message "a")); Emit EvPollComplete; Emit EvPoll].
Proof.
  destruct (poll_success (test_env 200 [message "a"]) open_xhr "s"
              eq_refl eq_refl eq_refl eq_refl eq_refl eq_refl) as [H1 [H2 _]].
  split; [ exact H1 | exact H2 ].
Defined.

(** Emitting an event, whatever listeners of [pause] and deferred closes it
    runs, changes neither the class, nor the session id, nor the polling
    flag; the log only grows; and [ready_state] is left as it was or set to
    [paused]. *)
Theorem emit_keeps_session (E : env) (e : event) (t : transport) :
  cls (snd (emit E e t)) = cls t
  /\ sid (snd (emit E e t)) = sid t
  /\ polling (snd (emit E e t)) = polling t
  /\ (exists l, log (snd (emit E e t)) = log t ++ Emit e :: l)
  /\ (ready_state (snd (emit E e t)) = ready_state t
      \/ ready_state (snd (emit E e t)) = Some Paused).
Proof.
  destruct (emit_evolves E e t) as [l [[L C S P _ R _ _] _]].
  repeat split; try assumption. exists l. exact L.
Qed.

End PollSuccess.
